(** * Cash-loss calculator: loss formula and rate derivation

    A shallow embedding of the calculation core of the cash-loss calculator:
    module [Calc] is the current [app.js], which derives rates from IMF CPI
    readings and adds inflation erosion to the opportunity cost; module
    [CalcV0] is the earlier [app.js], which reads annual percentages directly
    and computes the opportunity cost only.

    JavaScript numbers are modelled twice.

    In [Num], and in everything built on it, a finite number is an exact
    real, next to the three non-finite values [+Infinity], [-Infinity] and
    [NaN].  Arithmetic follows the IEEE 754 rules for the non-finite values
    and for the division by zero; on finite operands it is the exact real
    operation: rounding, overflow to infinity and the sign of zero are not
    modelled.  This model says which expression the code evaluates and which
    branch it takes.

    In [Double] a number is an IEEE 754 binary64 value and the four
    operations round to nearest, overflow to infinity and keep the sign of
    zero.  What rounding and overflow decide is stated in this model: when
    the loss of a zero amount is zero, that the losses at two horizons can
    tie, that the derived inflation rate can be exactly [-1]. *)

From Stdlib Require Import Reals Lra Lia ZArith Bool List String Ascii.
From Stdlib Require Decimal DecimalNat DecimalString.
From Stdlib Require SpecFloat.
Import ListNotations.

Set Warnings "-register-all".

Open Scope R_scope.

(** ** Numbers *)

Module Num.

Inductive number : Type :=
| Fin (x : R)
| PInf
| NInf
| NaN.

Definition Rltb (x y : R) : bool := if Rlt_dec x y then true else false.
Definition Rleb (x y : R) : bool := if Rle_dec x y then true else false.
Definition Reqb (x y : R) : bool := if Req_dec_T x y then true else false.

Definition isNaN (a : number) : bool :=
  match a with NaN => true | _ => false end.

(** [Number.isFinite] *)
Definition isFinite (a : number) : bool :=
  match a with Fin _ => true | _ => false end.

Definition is_neg (a : number) : bool :=
  match a with
  | Fin x => Rltb x 0
  | NInf => true
  | PInf | NaN => false
  end.

Definition inf_of_sign (negative : bool) : number :=
  if negative then NInf else PInf.

Definition neg (a : number) : number :=
  match a with
  | Fin x => Fin (- x)
  | PInf => NInf
  | NInf => PInf
  | NaN => NaN
  end.

Definition add (a b : number) : number :=
  match a, b with
  | NaN, _ | _, NaN => NaN
  | Fin x, Fin y => Fin (x + y)
  | PInf, NInf | NInf, PInf => NaN
  | PInf, _ | _, PInf => PInf
  | NInf, _ | _, NInf => NInf
  end.

Definition sub (a b : number) : number := add a (neg b).

Definition mul (a b : number) : number :=
  match a, b with
  | NaN, _ | _, NaN => NaN
  | Fin x, Fin y => Fin (x * y)
  | Fin x, _ | _, Fin x =>
      if Reqb x 0 then NaN else inf_of_sign (xorb (is_neg a) (is_neg b))
  | _, _ => inf_of_sign (xorb (is_neg a) (is_neg b))
  end.

Definition div (a b : number) : number :=
  match a, b with
  | NaN, _ | _, NaN => NaN
  | Fin x, Fin y =>
      if Reqb y 0
      then (if Reqb x 0 then NaN else inf_of_sign (Rltb x 0))
      else Fin (x / y)
  | Fin _, _ => Fin 0
  | _, Fin y => inf_of_sign (xorb (is_neg a) (Rltb y 0))
  | _, _ => NaN
  end.

(** Comparisons: every comparison with [NaN] is false. *)
Definition le (a b : number) : bool :=
  match a, b with
  | NaN, _ | _, NaN => false
  | Fin x, Fin y => Rleb x y
  | NInf, _ | _, PInf => true
  | _, _ => false
  end.

Definition ge (a b : number) : bool := le b a.

Definition lt (a b : number) : bool :=
  match a, b with
  | NaN, _ | _, NaN => false
  | Fin x, Fin y => Rltb x y
  | PInf, _ | _, NInf => false
  | _, _ => true
  end.

(** An integral real, and the integer it is. *)
Definition is_integral (y : R) : bool := Reqb (IZR (Int_part y)) y.

(** [Math.pow], by the cases of the language definition. *)
Definition pow (base exponent : number) : number :=
  match exponent with
  | NaN => NaN
  | Fin y =>
      if Reqb y 0 then Fin 1
      else
        match base with
        | NaN => NaN
        | PInf => if Rltb 0 y then PInf else Fin 0
        | NInf =>
            if Rltb 0 y
            then (if is_integral y && Z.odd (Int_part y) then NInf else PInf)
            else Fin 0
        | Fin x =>
            if Reqb x 0 then (if Rltb 0 y then Fin 0 else PInf)
            else if Rltb 0 x then Fin (Rpower x y)
            else if is_integral y then Fin (powerRZ x (Int_part y))
            else NaN
        end
  | PInf =>
      match base with
      | NaN => NaN
      | PInf | NInf => PInf
      | Fin x =>
          if Rltb 1 (Rabs x) then PInf
          else if Reqb (Rabs x) 1 then NaN
          else Fin 0
      end
  | NInf =>
      match base with
      | NaN => NaN
      | PInf | NInf => Fin 0
      | Fin x =>
          if Rltb 1 (Rabs x) then Fin 0
          else if Reqb (Rabs x) 1 then NaN
          else PInf
      end
  end.

End Num.

Import Num.

Declare Scope num_scope.
Delimit Scope num_scope with num.
Bind Scope num_scope with number.
Infix "+" := add : num_scope.
Infix "-" := sub : num_scope.
Infix "*" := mul : num_scope.
Infix "/" := div : num_scope.

(** ** Values of the country dataset

    A record of [data/countries.json] (or of [FALLBACK_COUNTRIES]) is a plain
    data object: its fields hold scalars or nested plain objects, whose text
    is [[object Object]].  Strings are sequences of ASCII characters, and the
    white space skipped when a number is read is the ASCII white space. *)

Module Val.

Inductive value : Type :=
| VUndefined
| VNull
| VBool (b : bool)
| VNumber (n : number)
| VString (s : string)
| VObject (fields : list (string * value)).

(** A computation that may throw a [TypeError]. *)
Inductive result (A : Type) : Type :=
| Ok (a : A)
| TypeError.
Arguments Ok {A} a.
Arguments TypeError {A}.

Definition bind {A B : Type} (m : result A) (f : A -> result B) : result B :=
  match m with
  | Ok a => f a
  | TypeError => TypeError
  end.

Fixpoint lookup (k : string) (fields : list (string * value)) : value :=
  match fields with
  | [] => VUndefined
  | (k', v) :: rest => if String.eqb k k' then v else lookup k rest
  end.

(** Property read [o.k]: reading a property of [undefined] or [null] throws;
    a primitive has none of the properties read here. *)
Definition get (o : value) (k : string) : result value :=
  match o with
  | VUndefined | VNull => TypeError
  | VObject fields => Ok (lookup k fields)
  | VBool _ | VNumber _ | VString _ => Ok VUndefined
  end.

(** The values that count as true in a condition. *)
Definition truthy (v : value) : bool :=
  match v with
  | VUndefined | VNull => false
  | VBool b => b
  | VNumber (Fin x) => negb (Reqb x 0)
  | VNumber NaN => false
  | VNumber _ => true
  | VString s => negb (String.eqb s "")
  | VObject _ => true
  end.

(** [a && b]: [a] when it is falsy, otherwise [b], which is only then
    evaluated. *)
Definition and_then (a : value) (b : value -> result value) : result value :=
  if truthy a then b a else Ok a.

(** [a || b] on values. *)
Definition or_else (a b : value) : value := if truthy a then a else b.

(** *** Reading a number from text *)

Definition isWhiteSpace (c : ascii) : bool :=
  let n := nat_of_ascii c in
  ((n =? 9) || (n =? 10) || (n =? 11) || (n =? 12) || (n =? 13) || (n =? 32))%nat.

Fixpoint trimStart (s : string) : string :=
  match s with
  | String c rest => if isWhiteSpace c then trimStart rest else s
  | EmptyString => s
  end.

Fixpoint allWhiteSpace (s : string) : bool :=
  match s with
  | String c rest => isWhiteSpace c && allWhiteSpace rest
  | EmptyString => true
  end.

(** The value of a digit in the given radix. *)
Definition digitValue (radix : Z) (c : ascii) : option Z :=
  let n := Z.of_nat (nat_of_ascii c) in
  let d :=
    if ((48 <=? n) && (n <=? 57))%Z then Some (n - 48)%Z
    else if ((97 <=? n) && (n <=? 122))%Z then Some (n - 87)%Z
    else if ((65 <=? n) && (n <=? 90))%Z then Some (n - 55)%Z
    else None in
  match d with
  | Some v => if (v <? radix)%Z then Some v else None
  | None => None
  end.

(** The longest run of digits at the head of [s]: the integer read so far,
    the number of digits, and the rest of the text. *)
Fixpoint digits (radix acc : Z) (count : nat) (s : string) : Z * nat * string :=
  match s with
  | String c rest =>
      match digitValue radix c with
      | Some d => digits radix (radix * acc + d)%Z (S count) rest
      | None => (acc, count, s)
      end
  | EmptyString => (acc, count, s)
  end.

Definition stripPrefix (p s : string) : option string :=
  if String.prefix p s
  then Some (String.substring (String.length p) (String.length s - String.length p) s)
  else None.

Definition isExponentMark (c : ascii) : bool :=
  (Ascii.eqb c "e" || Ascii.eqb c "E")%char.

(** An exponent part [e], [e+] or [e-] followed by at least one digit;
    without a digit there is no exponent part and nothing is consumed. *)
Definition exponentPart (s : string) : Z * string :=
  match s with
  | String c rest =>
      if isExponentMark c then
        let '(sgn, rest') :=
          match rest with
          | String "+"%char r => (1%Z, r)
          | String "-"%char r => ((-1)%Z, r)
          | _ => (1%Z, rest)
          end in
        let '(e, n, rest'') := digits 10 0 0 rest' in
        if (n =? 0)%nat then (0%Z, s) else ((sgn * e)%Z, rest'')
      else (0%Z, s)
  | EmptyString => (0%Z, s)
  end.

(** The longest unsigned decimal literal at the head of [s] ([Infinity],
    [12], [12.], [12.5], [.5], each but the first with an optional exponent),
    with the text after it. *)
Definition unsignedDecimal (s : string) : option (number * string) :=
  match stripPrefix "Infinity" s with
  | Some rest => Some (PInf, rest)
  | None =>
      let '(ip, ni, r1) := digits 10 0 0 s in
      let '(m, nf, r2) :=
        match r1 with
        | String "."%char r => digits 10 ip 0 r
        | _ => (ip, 0%nat, r1)
        end in
      if (ni + nf =? 0)%nat then None
      else
        let '(e, r3) := exponentPart r2 in
        Some (Fin (IZR m * powerRZ 10 (e - Z.of_nat nf)), r3)
  end.

Definition signedDecimal (s : string) : option (number * string) :=
  let '(negative, rest) :=
    match s with
    | String "+"%char r => (false, r)
    | String "-"%char r => (true, r)
    | _ => (false, s)
    end in
  match unsignedDecimal rest with
  | Some (n, rest') => Some (if negative then neg n else n, rest')
  | None => None
  end.

(** [parseFloat] of a string: leading white space is skipped and the longest
    decimal literal at the head is read; [NaN] when there is none. *)
Definition parseFloatString (s : string) : number :=
  match signedDecimal (trimStart s) with
  | Some (n, _) => n
  | None => NaN
  end.

(** [parseFloat(v)]: the text of [v] is read as a decimal literal.  The
    digits of a number read back as that number; a plain object has the text
    [[object Object]]. *)
Definition parseFloat (v : value) : number :=
  match v with
  | VNumber n => n
  | VString s => parseFloatString s
  | VUndefined => parseFloatString "undefined"
  | VNull => parseFloatString "null"
  | VBool b => parseFloatString (if b then "true" else "false")
  | VObject _ => parseFloatString "[object Object]"
  end.

(** A literal [0x..], [0o..] or [0b..] that is the whole of [s]. *)
Definition nonDecimalInteger (s : string) : option number :=
  match s with
  | String "0"%char (String c rest) =>
      let radix :=
        if (Ascii.eqb c "x" || Ascii.eqb c "X")%char then Some 16%Z
        else if (Ascii.eqb c "o" || Ascii.eqb c "O")%char then Some 8%Z
        else if (Ascii.eqb c "b" || Ascii.eqb c "B")%char then Some 2%Z
        else None in
      match radix with
      | Some b =>
          let '(m, n, rest') := digits b 0 0 rest in
          if (negb (n =? 0)%nat && String.eqb rest' "")%bool
          then Some (Fin (IZR m)) else None
      | None => None
      end
  | _ => None
  end.

Fixpoint trimEnd (s : string) : string :=
  match s with
  | String c rest => if allWhiteSpace s then EmptyString else String c (trimEnd rest)
  | EmptyString => EmptyString
  end.

(** The number a string converts to in arithmetic: white space is trimmed at
    both ends, the empty text is [0], and otherwise the whole text has to be
    one numeric literal. *)
Definition stringToNumber (s : string) : number :=
  let t := trimEnd (trimStart s) in
  if String.eqb t "" then Fin 0
  else
    match nonDecimalInteger t with
    | Some n => n
    | None =>
        match signedDecimal t with
        | Some (n, rest) => if String.eqb rest "" then n else NaN
        | None => NaN
        end
    end.

(** The number a value converts to in arithmetic. *)
Definition toNumber (v : value) : number :=
  match v with
  | VUndefined => NaN
  | VNull => Fin 0
  | VBool b => if b then Fin 1 else Fin 0
  | VNumber n => n
  | VString s => stringToNumber s
  | VObject _ => NaN
  end.

End Val.

Import Val.

Notation "x <- m ;; k" := (bind m (fun x => k))
  (at level 61, m at next level, right associativity).

(** ** What the page shows

    A result cell holds a dash or an amount formatted by [formatMoney]; the
    formatting itself (rounding to one decimal, the k and M suffixes) is
    presentation and is kept symbolic. *)

Module Page.

Inductive cell : Type :=
| Dash
| Money (amount : number) (currencySymbol : value).

(** The object [{1: .., 5: .., 10: ..}] handed to [animateResultNumbers]. *)
Record Values : Type := mkValues {
  year1 : number;
  year5 : number;
  year10 : number
}.

(** What one run of the calculation leaves on the page: the argument of
    [setEmptyState], the argument of [toggleInterestExplanation] when it is
    called, and the three result cells. *)
Record Screen : Type := mkScreen {
  emptyState : bool;
  interestExplanation : option bool;
  loss1y : cell;
  loss5y : cell;
  loss10y : cell
}.

(** [animateResultNumbers]: every entry of [values] is a number, for which
    the test [!= null] holds ([NaN] and the infinities included), so each
    cell receives [formatMoney] of its entry. *)
Definition animateResultNumbers (values : Values) (sym : value)
  : cell * cell * cell :=
  (Money (year1 values) sym, Money (year5 values) sym, Money (year10 values) sym).

(** The page state the calculation reads. *)
Record Dom : Type := mkDom {
  amountInput_value : string;
  countrySelect_value : string;
  countries : list value
}.

Definition strictEqString (v : value) (s : string) : bool :=
  match v with
  | VString t => String.eqb t s
  | _ => false
  end.

Fixpoint find_by_id (id : string) (cs : list value) : result value :=
  match cs with
  | [] => Ok VUndefined
  | c :: rest =>
      cid <- get c "id" ;;
      if strictEqString cid id then Ok c else find_by_id id rest
  end.

(** [getCountry] *)
Definition getCountry (dom : Dom) : result value :=
  c <- find_by_id (countrySelect_value dom) (countries dom) ;;
  Ok (or_else c VNull).

(** *** Popup text

    Text is kept as a sequence of fragments: markup and wording written in the
    program, text taken from the record, and numbers still to be printed. *)

Inductive frag : Type :=
| Lit (s : string)
| Data (s : string)
| NumText (n : number)
| PercentText (n : number).

Definition text : Type := list frag.

Fixpoint replaceChar (c : ascii) (by_ : string) (s : string) : string :=
  match s with
  | EmptyString => EmptyString
  | String d rest =>
      if Ascii.eqb c d then (by_ ++ replaceChar c by_ rest)%string
      else String d (replaceChar c by_ rest)
  end.

Definition dquoteChar : ascii := ascii_of_nat 34.
Definition dquote : string := String dquoteChar EmptyString.

(** [escapeHtml] on a string: the five replacements, in the order written. *)
Definition escapeString (s : string) : string :=
  replaceChar "'"%char "&#39;"
    (replaceChar dquoteChar "&quot;"
      (replaceChar ">"%char "&gt;"
        (replaceChar "<"%char "&lt;"
          (replaceChar "&"%char "&amp;" s)))).

(** The replacements act character by character, so they act on each
    fragment; printed numbers hold none of the five characters. *)
Definition escapeFrag (f : frag) : frag :=
  match f with
  | Lit s => Lit (escapeString s)
  | Data s => Data (escapeString s)
  | NumText n => NumText n
  | PercentText n => PercentText n
  end.

Definition escapeHtml (t : text) : text := map escapeFrag t.

(** [String(v)] of a record value. *)
Definition stringOf (v : value) : frag :=
  match v with
  | VString s => Data s
  | VNumber n => NumText n
  | VUndefined => Data "undefined"
  | VNull => Data "null"
  | VBool b => Data (if b then "true" else "false")
  | VObject _ => Data "[object Object]"
  end.

(** [String(x)] of a parsed number or [null]. *)
Definition stringOfParsed (x : option number) : frag :=
  match x with
  | Some n => NumText n
  | None => Data "null"
  end.

(** [formatPercent] *)
Definition formatPercent (valueDecimal : number) : frag := PercentText valueDecimal.

End Page.

Import Page.

(** ** The current calculator: inflation erosion plus opportunity cost *)

Module Calc.

(** [FALLBACK_COUNTRIES] *)
Definition FALLBACK_COUNTRIES : list value :=
  [ VObject
      [ ("id", VString "US");
        ("name", VString "United States");
        ("currencyCode", VString "USD");
        ("currencySymbol", VString "$");
        ("cpi", VObject
           [ ("latest", VNumber (Fin (1021 / 10)));
             ("latestDate", VString "2024-M12");
             ("previous", VNumber (Fin 100));
             ("previousDate", VString "2023-M12") ]);
        ("rate", VObject
           [ ("value", VNumber (Fin 4));
             ("date", VString "2024-M12") ]) ] ]%string.

(** [parseFiniteNumber(value)]: the finite number, or [null]. *)
Definition parseFiniteNumber (v : value) : option number :=
  let num := match v with VNumber n => n | _ => parseFloat v end in
  if isFinite num then Some num else None.

Record Inputs : Type := mkInputs {
  inflationRate : number;
  interestRate : number;
  hasRate : bool
}.

(** [x == null] on a parsed number. *)
Definition isNull {A : Type} (x : option A) : bool :=
  match x with None => true | Some _ => false end.

(** [getInputs(country)]: the derived rates, or [null]. *)
Definition getInputs (country : value) : result (option Inputs) :=
  cpi <- and_then country (fun c => get c "cpi") ;;
  latest <- and_then cpi (fun c => get c "latest") ;;
  previous <- and_then cpi (fun c => get c "previous") ;;
  match parseFiniteNumber latest, parseFiniteNumber previous with
  | Some cpiLatest, Some cpiPrevious =>
      if le cpiLatest (Fin 0) || le cpiPrevious (Fin 0) then Ok None
      else
        let inflationRate := (cpiLatest / cpiPrevious - Fin 1)%num in
        rate <- and_then country (fun c => get c "rate") ;;
        v <- and_then rate (fun _ => r <- get country "rate" ;; get r "value") ;;
        let rateValue := parseFiniteNumber v in
        let hasRate := negb (isNull rateValue) in
        Ok (Some
              {| inflationRate := inflationRate;
                 interestRate :=
                   match rateValue with
                   | Some rv => (rv / Fin 100)%num
                   | None => Fin 0
                   end;
                 hasRate := hasRate |})
  | _, _ => Ok None
  end.

(** [computeLoss(amount, inflationDecimal, savingsRateDecimal, years)] *)
Definition computeLoss (amount inflationDecimal savingsRateDecimal years : number)
  : number :=
  let factor := pow (Fin 1 + inflationDecimal) years in
  let inflationErosion := (amount * (Fin 1 - Fin 1 / factor))%num in
  let opportunityCost :=
    (amount / factor * (pow (Fin 1 + savingsRateDecimal) years - Fin 1))%num in
  (inflationErosion + opportunityCost)%num.

Definition dashes (empty : bool) (toggle : option bool) : Screen :=
  {| emptyState := empty; interestExplanation := toggle;
     loss1y := Dash; loss5y := Dash; loss10y := Dash |}.

(** [runCalculation] *)
Definition runCalculation (dom : Dom) : result Screen :=
  let amount := parseFloatString (amountInput_value dom) in
  country <- getCountry dom ;;
  let hasAmount := negb (isNaN amount) && ge amount (Fin 0) in
  if negb hasAmount then Ok (dashes true None)
  else if negb (truthy country) then Ok (dashes false (Some false))
  else
    inputs <- getInputs country ;;
    s <- get country "currencySymbol" ;;
    let sym := or_else s (VString "") in
    match inputs with
    | None => Ok (dashes false (Some false))
    | Some inputs =>
        let values :=
          {| year1 := (amount * inflationRate inputs + amount * interestRate inputs)%num;
             year5 := computeLoss amount (inflationRate inputs) (interestRate inputs) (Fin 5);
             year10 := computeLoss amount (inflationRate inputs) (interestRate inputs) (Fin 10) |} in
        let '(c1, c5, c10) := animateResultNumbers values sym in
        Ok {| emptyState := false; interestExplanation := Some (hasRate inputs);
              loss1y := c1; loss5y := c5; loss10y := c10 |}
    end.

Definition placeholder : text :=
  [ Lit ("<h3 id=" ++ dquote ++ "popup-title" ++ dquote
         ++ ">How these numbers are calculated</h3><p>Select a country to see concrete inputs and formulas.</p>") ]%string.

Definition rateUnavailableNote : string :=
  "Short-term interest rate is unavailable for this country in the current IMF dataset. This calculator uses inflation-only mode (interestRate = 0).".

Definition sectionOpen : frag :=
  Lit ("<div class=" ++ dquote ++ "popup-section" ++ dquote ++ ">")%string.

(** [buildHowCalculatedPopup(country, inputs)] *)
Definition buildHowCalculatedPopup (country : value) (inputs : option Inputs)
  : result text :=
  if negb (truthy country) then Ok placeholder
  else
    cpi <- get country "cpi" ;;
    if negb (truthy cpi) then Ok placeholder
    else
      match inputs with
      | None => Ok placeholder
      | Some inputs =>
          latest <- get cpi "latest" ;;
          previous <- get cpi "previous" ;;
          let cpiLatest := parseFiniteNumber latest in
          let cpiPrevious := parseFiniteNumber previous in
          rate <- get country "rate" ;;
          v <- and_then rate (fun _ => r <- get country "rate" ;; get r "value") ;;
          let rateValue := parseFiniteNumber v in
          let hasRate := negb (isNull rateValue) in
          let inflationFormula := [ Lit "inflationRate = (latestCPI / previousCPI) - 1" ] in
          let inflationSubstitution :=
            [ Lit "inflationRate = ("; stringOfParsed cpiLatest; Lit " / ";
              stringOfParsed cpiPrevious; Lit ") - 1 = ";
              formatPercent (inflationRate inputs); Lit "%" ] in
          let interestFormula := [ Lit "interestRate = rateValue / 100" ] in
          let interestSubstitution :=
            if hasRate
            then [ Lit "interestRate = "; stringOfParsed rateValue; Lit " / 100 = ";
                   formatPercent (interestRate inputs); Lit "%" ]
            else [ Lit rateUnavailableNote ] in
          let oneYearFormula := [ Lit "1-year loss = P * i + P * r" ] in
          let longHorizonFormula :=
            [ Lit "loss = P * (1 - 1/(1+i)^n) + (P/(1+i)^n) * ((1+r)^n - 1)" ] in
          let variables :=
            [ Lit "P = amount, i = inflationRate, r = interestRate, n = years" ] in
          name <- get country "name" ;;
          latestDate <- get cpi "latestDate" ;;
          previousDate <- get cpi "previousDate" ;;
          interestBlock <-
            (if hasRate
             then
               r <- get country "rate" ;;
               date <- get r "date" ;;
               Ok ([ Lit "<p>Rate value: <strong>" ] ++ escapeHtml [ stringOfParsed rateValue ]
                   ++ [ Lit "%</strong> (" ] ++ escapeHtml [ stringOf date ] ++ [ Lit ")</p>" ]
                   ++ [ Lit "<p><code>" ] ++ escapeHtml interestFormula ++ [ Lit "</code></p>" ]
                   ++ [ Lit "<p><code>" ] ++ escapeHtml interestSubstitution
                   ++ [ Lit "</code></p>" ])
             else
               Ok ([ Lit "<p>" ] ++ escapeHtml interestSubstitution ++ [ Lit "</p>" ])) ;;
          Ok ([ Lit "" ]
              ++ [ Lit ("<h3 id=" ++ dquote ++ "popup-title" ++ dquote
                        ++ ">How these numbers are calculated for ")%string ]
              ++ escapeHtml [ stringOf name ] ++ [ Lit "</h3>" ]
              ++ [ sectionOpen ]
              ++ [ Lit "<h4>Inflation input from IMF CPI index</h4>" ]
              ++ [ Lit "<p>Latest CPI: <strong>" ] ++ escapeHtml [ stringOfParsed cpiLatest ]
              ++ [ Lit "</strong> (" ] ++ escapeHtml [ stringOf latestDate ] ++ [ Lit ")</p>" ]
              ++ [ Lit "<p>Previous CPI: <strong>" ] ++ escapeHtml [ stringOfParsed cpiPrevious ]
              ++ [ Lit "</strong> (" ] ++ escapeHtml [ stringOf previousDate ] ++ [ Lit ")</p>" ]
              ++ [ Lit "<p><code>" ] ++ escapeHtml inflationFormula ++ [ Lit "</code></p>" ]
              ++ [ Lit "<p><code>" ] ++ escapeHtml inflationSubstitution ++ [ Lit "</code></p>" ]
              ++ [ Lit "</div>" ]
              ++ [ sectionOpen ]
              ++ [ Lit "<h4>Interest input from IMF short-term rate</h4>" ]
              ++ interestBlock
              ++ [ Lit "</div>" ]
              ++ [ sectionOpen ]
              ++ [ Lit "<h4>Loss formulas used on this page</h4>" ]
              ++ [ Lit "<p><code>" ] ++ escapeHtml oneYearFormula ++ [ Lit "</code></p>" ]
              ++ [ Lit "<p><code>" ] ++ escapeHtml longHorizonFormula ++ [ Lit "</code></p>" ]
              ++ [ Lit "<p>" ] ++ escapeHtml variables ++ [ Lit "</p>" ]
              ++ [ Lit "<p>Total loss = purchasing power erosion from inflation + missed growth from not earning interest.</p>" ]
              ++ [ Lit "</div>" ]
              ++ [ Lit ("<p class=" ++ dquote ++ "popup-source" ++ dquote
                        ++ ">Based on <a href=" ++ dquote ++ "https://data.imf.org" ++ dquote
                        ++ " target=" ++ dquote ++ "_blank" ++ dquote
                        ++ " rel=" ++ dquote ++ "noopener noreferrer" ++ dquote
                        ++ ">IMF Data</a></p>")%string ])
      end.

(** [openPopup]: the text placed in the popup. *)
Definition openPopup (dom : Dom) : result text :=
  country <- getCountry dom ;;
  inputs <- (if truthy country then getInputs country else Ok None) ;;
  buildHowCalculatedPopup country inputs.

End Calc.

(** ** The earlier calculator: opportunity cost only *)

Module CalcV0.

(** [FALLBACK_COUNTRIES] *)
Definition FALLBACK_COUNTRIES : list value :=
  [ VObject
      [ ("id", VString "US");
        ("name", VString "United States");
        ("currencyCode", VString "USD");
        ("currencySymbol", VString "$");
        ("inflationAnnual", VNumber (Fin (295 / 100)));
        ("savingsRateAnnual", VNumber (Fin (45 / 10))) ] ]%string.

(** [computeLoss(amount, inflationDecimal, savingsRateDecimal, years)] *)
Definition computeLoss (amount inflationDecimal savingsRateDecimal years : number)
  : number :=
  let factor := pow (Fin 1 + inflationDecimal) years in
  let growthFactor := pow (Fin 1 + savingsRateDecimal) years in
  (amount / factor * (growthFactor - Fin 1))%num.

(** [runCalculation] *)
Definition runCalculation (dom : Dom) : result Screen :=
  let amount := parseFloatString (amountInput_value dom) in
  country <- getCountry dom ;;
  let hasAmount := negb (isNaN amount) && ge amount (Fin 0) in
  if negb hasAmount then Ok (Calc.dashes true None)
  else if negb (truthy country) then Ok (Calc.dashes false None)
  else
    inflationAnnual <- get country "inflationAnnual" ;;
    savingsRateAnnual <- get country "savingsRateAnnual" ;;
    let i := (toNumber inflationAnnual / Fin 100)%num in
    let r := (toNumber savingsRateAnnual / Fin 100)%num in
    s <- get country "currencySymbol" ;;
    let sym := or_else s (VString "") in
    let values :=
      {| year1 := computeLoss amount i r (Fin 1);
         year5 := computeLoss amount i r (Fin 5);
         year10 := computeLoss amount i r (Fin 10) |} in
    let '(c1, c5, c10) := animateResultNumbers values sym in
    Ok {| emptyState := false; interestExplanation := None;
          loss1y := c1; loss5y := c5; loss10y := c10 |}.

End CalcV0.

(** ** The loss formula in double precision

    The two [computeLoss] functions on IEEE 754 binary64 numbers.  The
    operations [+], [-], [*] and [/] are those of the standard: round to
    nearest with ties to even, overflow to an infinity, signed zeros, one
    [NaN].  The language definition leaves the value of [Math.pow] on finite
    operands to the implementation, so the power function is a parameter:
    what is proved about [computeLoss] here holds for every [Math.pow]. *)

Module Double.

Import SpecFloat.

Definition prec : Z := 53.
Definition emax : Z := 1024.

Definition number : Type := spec_float.

Definition add : number -> number -> number := SFadd prec emax.
Definition sub : number -> number -> number := SFsub prec emax.
Definition mul : number -> number -> number := SFmul prec emax.
Definition div : number -> number -> number := SFdiv prec emax.

(** The double nearest to an integer; integers up to [2 ^ 53] and the powers
    of two are read exactly. *)
Definition ofZ (z : Z) : number := binary_normalize prec emax z 0 false.

Definition zero (negative : bool) : number := S754_zero negative.
Definition infinity (negative : bool) : number := S754_infinity negative.
Definition nan : number := S754_nan.

(** A value of the format: the mantissa of a finite number is normalised and
    its exponent is in range. *)
Definition isDouble (x : number) : bool := valid_binary prec emax x.

Definition isNaN (x : number) : bool :=
  match x with S754_nan => true | _ => false end.

(** [Number.isFinite] *)
Definition isFinite (x : number) : bool :=
  match x with S754_zero _ | S754_finite _ _ _ => true | _ => false end.

(** [x === 0]: either zero. *)
Definition isZero (x : number) : bool :=
  match x with S754_zero _ => true | _ => false end.

(** [x >= 0]: a zero, a positive number or [+Infinity]. *)
Definition notNegative (x : number) : bool :=
  match x with
  | S754_nan => false
  | S754_zero _ => true
  | S754_infinity s | S754_finite s _ _ => negb s
  end.

(** [x >= -1], read off the mantissa and the exponent: a negative number
    [- m * 2 ^ e] is not below [-1] when [e <= 0] and [m <= 2 ^ (- e)]. *)
Definition notBelowMinusOne (x : number) : bool :=
  match x with
  | S754_nan => false
  | S754_zero _ => true
  | S754_infinity s => negb s
  | S754_finite false _ _ => true
  | S754_finite true m e => (e <=? 0)%Z && (Zpos m <=? 2 ^ (- e))%Z
  end.

(** A finite number that is not zero: [m * 2 ^ e], negated when [negative]. *)
Definition finite (negative : bool) (m : positive) (e : Z) : number :=
  S754_finite negative m e.

(** Not [NaN], and with the sign [s]. *)
Definition signed (s : bool) (x : number) : Prop :=
  match x with
  | S754_nan => False
  | S754_zero s' | S754_infinity s' | S754_finite s' _ _ => s' = s
  end.

(** A zero, or a finite number of absolute value at most one. *)
Definition small (x : number) : Prop :=
  match x with
  | S754_zero _ => True
  | S754_finite _ m e => (e <= 0)%Z /\ (Zpos m <= 2 ^ (- e))%Z
  | _ => False
  end.

Section MathPow.

Variable pow : number -> number -> number.

(** [computeLoss] of the current calculator *)
Definition computeLoss (amount inflationDecimal savingsRateDecimal years : number)
  : number :=
  let factor := pow (add (ofZ 1) inflationDecimal) years in
  let inflationErosion := mul amount (sub (ofZ 1) (div (ofZ 1) factor)) in
  let opportunityCost :=
    mul (div amount factor)
        (sub (pow (add (ofZ 1) savingsRateDecimal) years) (ofZ 1)) in
  add inflationErosion opportunityCost.

(** [computeLoss] of the earlier calculator *)
Definition computeLossV0 (amount inflationDecimal savingsRateDecimal years : number)
  : number :=
  let factor := pow (add (ofZ 1) inflationDecimal) years in
  let growthFactor := pow (add (ofZ 1) savingsRateDecimal) years in
  mul (div amount factor) (sub growthFactor (ofZ 1)).

End MathPow.

(** [(cpiLatest / cpiPrevious) - 1] of [getInputs] *)
Definition inflationRate (cpiLatest cpiPrevious : number) : number :=
  sub (div cpiLatest cpiPrevious) (ofZ 1).

End Double.

(** ** The loss expression over the reals

    The real number that the expression of [computeLoss] denotes when the two
    bases [1 + inflationDecimal] and [1 + savingsRateDecimal] are positive:
    every operation is the exact one, nothing is rounded. *)

Module Exact.

(** [computeLoss] of the current calculator *)
Definition computeLoss (amount inflationDecimal savingsRateDecimal years : R) : R :=
  let factor := Rpower (1 + inflationDecimal) years in
  let inflationErosion := amount * (1 - 1 / factor) in
  let opportunityCost :=
    amount / factor * (Rpower (1 + savingsRateDecimal) years - 1) in
  inflationErosion + opportunityCost.

(** [computeLoss] of the earlier calculator *)
Definition computeLossV0 (amount inflationDecimal savingsRateDecimal years : R) : R :=
  let factor := Rpower (1 + inflationDecimal) years in
  let growthFactor := Rpower (1 + savingsRateDecimal) years in
  amount / factor * (growthFactor - 1).

End Exact.

(** ** The loss formula of the specification, over the reals *)

Module Spec.




(** The field [k] of a record; [undefined] when [o] is not an object or has
    no such field. *)
Definition field (k : string) (o : value) : value :=
  match o with
  | VObject fields => lookup k fields
  | _ => VUndefined
  end.

Definition missing (v : value) : Prop := v = VUndefined \/ v = VNull.

Definition nonFinite (v : value) : Prop :=
  v = VNumber PInf \/ v = VNumber NInf \/ v = VNumber NaN.

(** A CPI index value that is missing, non-finite, or not positive. *)
Definition unusableIndex (v : value) : Prop :=
  missing v \/ nonFinite v \/ exists x : R, v = VNumber (Fin x) /\ x <= 0.

(** The CPI readings and the interest-rate value of a country record. *)
Definition latestIndexValue (country : value) : value :=
  field "latest" (field "cpi" country).
Definition previousIndexValue (country : value) : value :=
  field "previous" (field "cpi" country).
Definition rateValue (country : value) : value :=
  field "value" (field "rate" country).

(** The record has no [rate] entry, or a [rate] object whose [value] is
    missing or non-finite. *)
Definition rateAbsent (country : value) : Prop :=
  missing (field "rate" country)
  \/ ((exists fields, field "rate" country = VObject fields)
      /\ (missing (rateValue country) \/ nonFinite (rateValue country))).

(** A result cell that shows a dash or a finite amount. *)
Definition finiteCell (c : cell) : Prop :=
  match c with
  | Dash => True
  | Money (Fin _) _ => True
  | Money _ _ => False
  end.

(** Every entry of the country list is a record. *)
Definition records (cs : list value) : Prop :=
  forall c : value, In c cs -> exists fields, c = VObject fields.

(** A value that is not an object: [undefined], [null], a boolean, a number
    or a string.  Reading it as a number or as text calls no method of the
    value. *)
Definition scalar (v : value) : Prop :=
  match v with
  | VObject _ => False
  | _ => True
  end.

(** The three values [getInputs] reads as numbers are scalars. *)
Definition scalarReadings (country : value) : Prop :=
  scalar (latestIndexValue country)
  /\ scalar (previousIndexValue country)
  /\ scalar (rateValue country).

(** The name and the dates the popup prints are scalars. *)
Definition scalarLabels (country : value) : Prop :=
  scalar (field "name" country)
  /\ scalar (field "latestDate" (field "cpi" country))
  /\ scalar (field "previousDate" (field "cpi" country))
  /\ scalar (field "date" (field "rate" country)).

End Spec.

(** ** Sample records and pages *)

Module Samples.

(** A record with a strongly negative interest rate. *)
Definition negativeRate : value :=
  VObject [ ("id", VString "XX");
            ("cpi", VObject [ ("latest", VNumber (Fin 100));
                              ("previous", VNumber (Fin 100)) ]);
            ("rate", VObject [ ("value", VNumber (Fin (-300))) ]) ]%string.

(** A record whose previous CPI reading is zero. *)
Definition zeroPrevious : value :=
  VObject [ ("id", VString "US");
            ("cpi", VObject [ ("latest", VNumber (Fin (1021 / 10)));
                              ("previous", VNumber (Fin 0)) ]);
            ("rate", VObject [ ("value", VNumber (Fin 4)) ]) ]%string.

(** A record with CPI readings and no rate entry. *)
Definition noRate : value :=
  VObject [ ("id", VString "ZZ");
            ("name", VString "Ruritania");
            ("cpi", VObject [ ("latest", VNumber (Fin 110));
                              ("latestDate", VString "2024-M12");
                              ("previous", VNumber (Fin 100));
                              ("previousDate", VString "2023-M12") ]) ]%string.

(** The page with the fallback list, the amount 10000 and the United States
    selected. *)
Definition fallbackPage : Dom :=
  {| amountInput_value := "10000";
     countrySelect_value := "US";
     countries := Calc.FALLBACK_COUNTRIES |}.


(** A record whose CPI readings are given as text. *)
Definition textReadings : value :=
  VObject [ ("id", VString "TT");
            ("cpi", VObject [ ("latest", VString "110");
                              ("previous", VString "100") ]) ]%string.

(** The fallback page with the amount text [Infinity]. *)
Definition infiniteAmountPage : Dom :=
  {| amountInput_value := "Infinity";
     countrySelect_value := "US";
     countries := Calc.FALLBACK_COUNTRIES |}.

(** A page of the earlier calculator whose record has no savings rate. *)
Definition noSavingsRatePage : Dom :=
  {| amountInput_value := "1000";
     countrySelect_value := "YY";
     countries :=
       [ VObject [ ("id", VString "YY");
                   ("name", VString "Elsewhere");
                   ("currencySymbol", VString "$");
                   ("inflationAnnual", VNumber (Fin 3)) ]%string ] |}.

(** A page of the earlier calculator: annual inflation of [-100] percent. *)
Definition totalDeflationPage : Dom :=
  {| amountInput_value := "1000";
     countrySelect_value := "XX";
     countries :=
       [ VObject [ ("id", VString "XX");
                   ("name", VString "Nowhere");
                   ("currencySymbol", VString "$");
                   ("inflationAnnual", VNumber (Fin (-100)));
                   ("savingsRateAnnual", VNumber (Fin (45 / 10))) ]%string ] |}.

End Samples.

(** ** [getInputs] without the error plumbing *)

Module Reads.

(** The value of [a && a.k]. *)
Definition guarded (a : value) (k : string) : value :=
  if truthy a then Spec.field k a else a.

(** The rates derived from the three values [getInputs] reads. *)
Definition ratesOf (latest previous rate : value) : option Calc.Inputs :=
  match Calc.parseFiniteNumber latest, Calc.parseFiniteNumber previous with
  | Some cpiLatest, Some cpiPrevious =>
      if le cpiLatest (Fin 0) || le cpiPrevious (Fin 0) then None
      else
        Some
          {| Calc.inflationRate := (cpiLatest / cpiPrevious - Fin 1)%num;
             Calc.interestRate :=
               match Calc.parseFiniteNumber rate with
               | Some rv => (rv / Fin 100)%num
               | None => Fin 0
               end;
             Calc.hasRate := negb (Calc.isNull (Calc.parseFiniteNumber rate)) |}
  | _, _ => None
  end.

(** A value the guard of [getInputs] turns away: not a finite number, or a
    finite number that is not positive. *)
Definition rejected (v : value) : Prop :=
  Calc.parseFiniteNumber v = None
  \/ exists x : R, Calc.parseFiniteNumber v = Some (Fin x) /\ x <= 0.

End Reads.

(** ** Country selection

    The flag shown in the country list and the country preselected from the
    visitor's location.  Both calculators share this code. *)

Module Select.

(** [a === b].  Two objects are the same only when they are one object; the
    values compared here come from different parsed documents, so an object is
    never the same as another value. *)
Definition strictEq (a b : value) : bool :=
  match a, b with
  | VUndefined, VUndefined => true
  | VNull, VNull => true
  | VBool x, VBool y => Bool.eqb x y
  | VNumber (Fin x), VNumber (Fin y) => Reqb x y
  | VNumber PInf, VNumber PInf => true
  | VNumber NInf, VNumber NInf => true
  | VString x, VString y => String.eqb x y
  | _, _ => false
  end.

(** The code point of the regional indicator symbol letter A, [0x1F1E6]. *)
Definition REGIONAL_A : Z := 127462.

Definition charCode (c : ascii) : Z := Z.of_nat (nat_of_ascii c).

(** [countryToFlag(id)]: the code points of the result, none for the empty
    string.  A number or a boolean has no [length]; an object whose [length]
    is 2 has no [charCodeAt] to call. *)
Definition countryToFlag (id : value) : result (list Z) :=
  if negb (truthy id) then Ok []
  else
    match id with
    | VString s =>
        if negb (String.length s =? 2)%nat then Ok []
        else
          match s with
          | String c0 (String c1 _) =>
              Ok [ (REGIONAL_A - 65 + charCode c0)%Z; (REGIONAL_A - 65 + charCode c1)%Z ]
          | _ => Ok []
          end
    | VObject fields =>
        if negb (strictEq (lookup "length" fields) (VNumber (Fin 2))) then Ok []
        else TypeError
    | _ => Ok []
    end.

Definition FALLBACK_COUNTRY_ID : string := "US".

(** [countries.some(function (c) { return c.id === code; })] *)
Fixpoint some_id (code : value) (cs : list value) : result bool :=
  match cs with
  | [] => Ok false
  | c :: rest =>
      cid <- get c "id" ;;
      if strictEq cid code then Ok true else some_id code rest
  end.

(** The value assigned to [countrySelect.value] when the visitor's country
    is unknown or not listed: the fallback country when it is listed,
    otherwise the id of the first country. *)
Definition fallbackSelection (cs : list value) : result value :=
  listed <- some_id (VString FALLBACK_COUNTRY_ID) cs ;;
  if listed then Ok (VString FALLBACK_COUNTRY_ID)
  else and_then (nth 0 cs VUndefined) (fun c => get c "id").

(** The handler of the geolocation answer [data]. *)
Definition selectFromAnswer (data : value) (cs : list value) : result value :=
  cc <- and_then data (fun d => get d "countryCode") ;;
  code <- (if truthy cc then get data "countryCode" else Ok VNull) ;;
  listed <- (if truthy code then some_id code cs else Ok false) ;;
  if listed then Ok code else fallbackSelection cs.

(** [preSelectCountryFromIP]: the value assigned to [countrySelect.value].
    [answer] is the parsed geolocation answer, or [None] when the request or
    its parsing failed; the [catch] handler also runs when the first handler
    throws. *)
Definition preSelectCountryFromIP (answer : option value) (cs : list value)
  : result value :=
  match answer with
  | Some data =>
      match selectFromAnswer data cs with
      | Ok v => Ok v
      | TypeError => fallbackSelection cs
      end
  | None => fallbackSelection cs
  end.

(** Every entry of the country list is a record whose [id] is a string. *)
Definition stringIds (cs : list value) : Prop :=
  forall c : value, In c cs ->
    exists fields s, c = VObject fields /\ lookup "id" fields = VString s.

(** [undefined] or [null]. *)
Definition nullish (v : value) : Prop := v = VUndefined \/ v = VNull.

(** A regional indicator symbol, [0x1F1E6] to [0x1F1FF]. *)
Definition regional (p : Z) : Prop := (REGIONAL_A <= p <= REGIONAL_A + 25)%Z.

(** An upper-case letter A to Z. *)
Definition upper (c : ascii) : Prop := (65 <= charCode c <= 90)%Z.

End Select.

Import Select.

(** ** Escaping, one character at a time *)

Module Escaped.

(** What [escapeHtml] makes of one character. *)
Definition escapeChar (c : ascii) : string :=
  if Ascii.eqb c "&" then "&amp;"
  else if Ascii.eqb c "<" then "&lt;"
  else if Ascii.eqb c ">" then "&gt;"
  else if Ascii.eqb c dquoteChar then "&quot;"
  else if Ascii.eqb c "'" then "&#39;"
  else String c EmptyString.

Fixpoint escapeEach (s : string) : string :=
  match s with
  | EmptyString => EmptyString
  | String c rest => (escapeChar c ++ escapeEach rest)%string
  end.

(** One of the five characters [escapeHtml] replaces. *)
Definition special (c : ascii) : bool :=
  Ascii.eqb c "&" || Ascii.eqb c "<" || Ascii.eqb c ">"
  || Ascii.eqb c dquoteChar || Ascii.eqb c "'".

(** A character that opens or closes markup or an attribute value. *)
Definition markup (c : ascii) : bool :=
  Ascii.eqb c "<" || Ascii.eqb c ">" || Ascii.eqb c dquoteChar || Ascii.eqb c "'".

Fixpoint anyChar (p : ascii -> bool) (s : string) : bool :=
  match s with
  | EmptyString => false
  | String c rest => p c || anyChar p rest
  end.

(** Reading the five entities back. *)
Fixpoint unescape (s : string) : string :=
  match s with
  | String "&" (String "a" (String "m" (String "p" (String ";" rest)))) =>
      String "&" (unescape rest)
  | String "&" (String "l" (String "t" (String ";" rest))) =>
      String "<" (unescape rest)
  | String "&" (String "g" (String "t" (String ";" rest))) =>
      String ">" (unescape rest)
  | String "&" (String "q" (String "u" (String "o" (String "t" (String ";" rest))))) =>
      String dquoteChar (unescape rest)
  | String "&" (String "#" (String "3" (String "9" (String ";" rest)))) =>
      String "'" (unescape rest)
  | String c rest => String c (unescape rest)
  | EmptyString => EmptyString
  end.

(** The decimal text of a natural number. *)
Definition decimal (n : nat) : string :=
  DecimalString.NilZero.string_of_uint (Nat.to_uint n).

(** A fragment that holds no markup character taken from a record. *)
Definition safeFrag (f : frag) : Prop :=
  match f with
  | Data d => anyChar markup d = false
  | _ => True
  end.

End Escaped.

Import Escaped.

(** ** Tactics *)

(** Evaluates the text functions and leaves the real arithmetic alone. *)
Ltac eval_text := cbv -[IZR powerRZ Rmult Rplus Rminus Rdiv Rinv Ropp].

(** A run that ends with dashes in the three cells. *)
Ltac dash_case := eexists; split; [reflexivity | simpl; tauto].

(** * Properties *)

(** ** Reading numbers and escaping text, on samples *)

Example parseFloat_amount : parseFloatString "10000" = Fin 10000.
Proof. eval_text. f_equal. simpl. lra. Qed.

Example parseFloat_prefix : parseFloatString " -12.50e-1 USD" = Fin (-5 / 4).
Proof. eval_text. f_equal. simpl. lra. Qed.

Example parseFloat_no_digits : parseFloatString "." = NaN.
Proof. reflexivity. Qed.

Example parseFloat_bare_exponent : parseFloatString "1e" = Fin 1.
Proof. eval_text. f_equal. simpl. lra. Qed.

Example parseFloat_infinity : parseFloatString "Infinity" = PInf.
Proof. reflexivity. Qed.

Example parseFloat_undefined : parseFloat VUndefined = NaN.
Proof. reflexivity. Qed.

Example stringToNumber_hex : stringToNumber " 0x1F " = Fin 31.
Proof. reflexivity. Qed.

Example stringToNumber_trailing : stringToNumber "12px" = NaN.
Proof. reflexivity. Qed.

Example stringToNumber_empty : stringToNumber "" = Fin 0.
Proof. reflexivity. Qed.

Example escapeString_sample :
  escapeString "a<b & 'c'" = "a&lt;b &amp; &#39;c&#39;"%string.
Proof. reflexivity. Qed.

Example getCountry_fallback :
  getCountry Samples.fallbackPage = Ok (hd VNull Calc.FALLBACK_COUNTRIES).
Proof. reflexivity. Qed.

(** ** Arithmetic on numbers *)

Lemma Rltb_true (x y : R) : x < y -> Rltb x y = true.
Proof. intros H. unfold Rltb. destruct (Rlt_dec x y); [reflexivity | contradiction]. Qed.

Lemma Rltb_false (x y : R) : ~ x < y -> Rltb x y = false.
Proof. intros H. unfold Rltb. destruct (Rlt_dec x y); [contradiction | reflexivity]. Qed.

Lemma Rleb_true (x y : R) : x <= y -> Rleb x y = true.
Proof. intros H. unfold Rleb. destruct (Rle_dec x y); [reflexivity | contradiction]. Qed.

Lemma Rleb_false (x y : R) : ~ x <= y -> Rleb x y = false.
Proof. intros H. unfold Rleb. destruct (Rle_dec x y); [contradiction | reflexivity]. Qed.

Lemma Reqb_true (x y : R) : x = y -> Reqb x y = true.
Proof. intros H. unfold Reqb. destruct (Req_dec_T x y); [reflexivity | contradiction]. Qed.

Lemma Reqb_false (x y : R) : x <> y -> Reqb x y = false.
Proof. intros H. unfold Reqb. destruct (Req_dec_T x y); [contradiction | reflexivity]. Qed.

Lemma add_Fin (x y : R) : (Fin x + Fin y)%num = Fin (x + y).
Proof. reflexivity. Qed.

Lemma sub_Fin (x y : R) : (Fin x - Fin y)%num = Fin (x - y).
Proof. reflexivity. Qed.

Lemma mul_Fin (x y : R) : (Fin x * Fin y)%num = Fin (x * y).
Proof. reflexivity. Qed.

Lemma div_Fin (x y : R) : y <> 0 -> (Fin x / Fin y)%num = Fin (x / y).
Proof. intros H. unfold div. rewrite (Reqb_false _ _ H). reflexivity. Qed.



Lemma is_integral_inv (y : R) : is_integral y = true -> exists k : Z, y = IZR k.
Proof.
  unfold is_integral, Reqb. destruct (Req_dec_T (IZR (Int_part y)) y) as [E | E].
  - intros _. exists (Int_part y). symmetry. exact E.
  - discriminate.
Qed.

(** A half is not an integer. *)
Lemma half_not_integral : is_integral (1 / 2) = false.
Proof.
  destruct (is_integral (1 / 2)) eqn:E; [| reflexivity].
  destruct (is_integral_inv _ E) as [k Hk].
  assert (H : IZR (2 * k) = IZR 1) by (rewrite mult_IZR; lra).
  apply eq_IZR in H. lia.
Qed.

(** [Math.pow] of a positive base is the real power. *)
Lemma pow_pos_base (x y : R) : 0 < x -> pow (Fin x) (Fin y) = Fin (Rpower x y).
Proof.
  intros Hx. unfold pow. unfold Reqb at 1. destruct (Req_dec_T y 0) as [-> | Hy].
  - rewrite Rpower_O by assumption. reflexivity.
  - rewrite Reqb_false by lra. rewrite Rltb_true by assumption. reflexivity.
Qed.

(** [Math.pow] of base zero and a positive exponent is zero. *)
Lemma pow_zero_base (y : R) : 0 < y -> pow (Fin 0) (Fin y) = Fin 0.
Proof.
  intros Hy. unfold pow. rewrite (Reqb_false y 0) by lra.
  rewrite Reqb_true by reflexivity. rewrite Rltb_true by assumption. reflexivity.
Qed.

(** [Math.pow] of a negative base: the integer power for an integral
    exponent, [NaN] otherwise. *)
Lemma pow_neg_base (x y : R) :
  x < 0 -> y <> 0 ->
  pow (Fin x) (Fin y)
  = if is_integral y then Fin (powerRZ x (Int_part y)) else NaN.
Proof.
  intros Hx Hy. unfold pow. rewrite (Reqb_false y 0) by assumption.
  rewrite Reqb_false by lra. rewrite Rltb_false by lra. reflexivity.
Qed.


Lemma Rpower_pos (x y : R) : 0 < Rpower x y.
Proof. unfold Rpower. apply exp_pos. Qed.

(** The growth factor of a rate above [-1] is a positive real. *)
Lemma factor_pos (i n : R) :
  0 < 1 + i -> pow (Fin 1 + Fin i) (Fin n) = Fin (Rpower (1 + i) n).
Proof. intros H. rewrite add_Fin. apply pow_pos_base. exact H. Qed.

(** ** The loss formula *)

(** With a positive growth factor and a finite savings growth, every step of
    [computeLoss] is the real operation. *)
Lemma computeLoss_real (P i r n h : R) :
  0 < 1 + i ->
  pow (Fin 1 + Fin r) (Fin n) = Fin h ->
  Calc.computeLoss (Fin P) (Fin i) (Fin r) (Fin n)
  = Fin (P * (1 - 1 / Rpower (1 + i) n) + P / Rpower (1 + i) n * (h - 1)).
Proof.
  intros Hi Hh. unfold Calc.computeLoss. cbv zeta.
  rewrite factor_pos by exact Hi. rewrite Hh.
  pose proof (Rpower_pos (1 + i) n) as Hg.
  rewrite !div_Fin by lra.
  reflexivity.
Qed.

(** With an undefined savings growth the loss is [NaN]. *)
Lemma computeLoss_undefined (P i r n : R) :
  0 < 1 + i ->
  pow (Fin 1 + Fin r) (Fin n) = NaN ->
  Calc.computeLoss (Fin P) (Fin i) (Fin r) (Fin n) = NaN.
Proof.
  intros Hi Hh. unfold Calc.computeLoss. cbv zeta.
  rewrite factor_pos by exact Hi. rewrite Hh.
  pose proof (Rpower_pos (1 + i) n) as Hg.
  rewrite !div_Fin by lra.
  reflexivity.
Qed.

(** The current calculator adds the inflation erosion to what the earlier
    one computes. *)
Lemma computeLoss_extends_V0 (amount i r years : number) :
  Calc.computeLoss amount i r years
  = (amount * (Fin 1 - Fin 1 / pow (Fin 1 + i) years)
     + CalcV0.computeLoss amount i r years)%num.
Proof. reflexivity. Qed.



(** ** Zero amount, zero rates *)


Lemma computeLossV0_real (P i r n h : R) :
  0 < 1 + i ->
  pow (Fin 1 + Fin r) (Fin n) = Fin h ->
  CalcV0.computeLoss (Fin P) (Fin i) (Fin r) (Fin n)
  = Fin (P / Rpower (1 + i) n * (h - 1)).
Proof.
  intros Hi Hh. unfold CalcV0.computeLoss. cbv zeta.
  rewrite factor_pos by exact Hi. rewrite Hh.
  pose proof (Rpower_pos (1 + i) n) as Hg.
  rewrite !div_Fin by lra.
  reflexivity.
Qed.

(** *** Double precision *)

Module DoubleFacts.

Import SpecFloat.

Lemma bounded_inv (m : positive) (e : Z) :
  bounded 53 1024 m e = true ->
  (Z.max (Zpos (digits2_pos m) + e - 53) (-1074) = e /\ e <= 971)%Z.
Proof.
  unfold bounded, canonical_mantissa, fexp, emin. intros H.
  apply andb_prop in H. destruct H as [H1 H2].
  apply Z.eqb_eq in H1. apply Z.leb_le in H2. split; [exact H1 | exact H2].
Qed.

(** The quotient of a mantissa by the mantissa of one is exact: the mantissa
    itself, or its double with the exponent one lower. *)
Lemma div_core_one (m : positive) (e : Z) :
  bounded 53 1024 m e = true ->
  SFdiv_core_binary 53 1024 (Zpos m) e 4503599627370496 (-52)
  = if (Zpos (digits2_pos m) =? 53)%Z && (-1074 <? e)%Z
    then (Zpos m~0, (e - 1)%Z, loc_Exact)
    else (Zpos m, e, loc_Exact).
Proof.
  intros B. destruct (bounded_inv m e B) as [C Le].
  unfold SFdiv_core_binary.
  change (Zdigits2 4503599627370496) with 53%Z.
  change (Zdigits2 (Zpos m)) with (Zpos (digits2_pos m)).
  set (d := Zpos (digits2_pos m)) in *.
  unfold fexp, emin.
  destruct ((d =? 53)%Z && (-1074 <? e)%Z) eqn:K.
  - apply andb_prop in K. destruct K as [K1 K2].
    apply Z.eqb_eq in K1. apply Z.ltb_lt in K2.
    replace (Z.min (Z.max (d + e - (53 + -52) - 53) (3 - 1024 - 53)) (e - -52))
      with (e - 1)%Z by lia.
    replace (e - -52 - (e - 1))%Z with 53%Z by lia.
    rewrite Z.shiftl_mul_pow2 by lia.
    rewrite (surjective_pairing (Z.div_eucl (Zpos m * 2 ^ 53) 4503599627370496)).
    change (fst (Z.div_eucl (Zpos m * 2 ^ 53) 4503599627370496))
      with (Zpos m * 2 ^ 53 / 4503599627370496)%Z.
    change (snd (Z.div_eucl (Zpos m * 2 ^ 53) 4503599627370496))
      with ((Zpos m * 2 ^ 53) mod 4503599627370496)%Z.
    replace (Zpos m * 2 ^ 53)%Z with (Zpos m~0 * 4503599627370496)%Z by lia.
    rewrite Z_div_mult by lia. rewrite Z_mod_mult. reflexivity.
  - assert (E : (e = -1074 \/ d < 53)%Z).
    { apply andb_false_iff in K. destruct K as [K | K].
      - apply Z.eqb_neq in K. lia.
      - apply Z.ltb_ge in K. lia. }
    replace (Z.min (Z.max (d + e - (53 + -52) - 53) (3 - 1024 - 53)) (e - -52))
      with e by lia.
    replace (e - -52 - e)%Z with 52%Z by lia.
    rewrite Z.shiftl_mul_pow2 by lia.
    rewrite (surjective_pairing (Z.div_eucl (Zpos m * 2 ^ 52) 4503599627370496)).
    change (fst (Z.div_eucl (Zpos m * 2 ^ 52) 4503599627370496))
      with (Zpos m * 2 ^ 52 / 4503599627370496)%Z.
    change (snd (Z.div_eucl (Zpos m * 2 ^ 52) 4503599627370496))
      with ((Zpos m * 2 ^ 52) mod 4503599627370496)%Z.
    replace (Zpos m * 2 ^ 52)%Z with (Zpos m * 4503599627370496)%Z by lia.
    rewrite Z_div_mult by lia. rewrite Z_mod_mult. reflexivity.
Qed.

(** Rounding an exact value that is already in the format changes nothing. *)
Lemma round_exact (sx : bool) (m : positive) (e : Z) :
  bounded 53 1024 m e = true ->
  binary_round_aux 53 1024 sx (Zpos m) e loc_Exact = S754_finite sx m e.
Proof.
  intros B. destruct (bounded_inv m e B) as [C Le].
  unfold binary_round_aux, shr_fexp, fexp, emin.
  change (Zdigits2 (Zpos m)) with (Zpos (digits2_pos m)).
  replace (Z.max (Zpos (digits2_pos m) + e - 53) (3 - 1024 - 53) - e)%Z with 0%Z by lia.
  cbn [shr shr_record_of_loc shr_m loc_of_shr_record round_nearest_even Zdigits2].
  replace (Z.max (Zpos (digits2_pos m) + e - 53) (3 - 1024 - 53) - e)%Z with 0%Z by lia.
  cbn [shr shr_record_of_loc shr_m].
  replace (e <=? 1024 - 53)%Z with true by (symmetry; apply Z.leb_le; lia).
  reflexivity.
Qed.

Lemma round_exact_even (sx : bool) (m : positive) (e : Z) :
  bounded 53 1024 m e = true ->
  Zpos (digits2_pos m) = 53%Z -> (-1074 < e)%Z ->
  binary_round_aux 53 1024 sx (Zpos m~0) (e - 1) loc_Exact = S754_finite sx m e.
Proof.
  intros B D L. destruct (bounded_inv m e B) as [C Le].
  unfold binary_round_aux, shr_fexp, fexp, emin.
  change (Zdigits2 (Zpos m~0)) with (Zpos (Pos.succ (digits2_pos m))).
  rewrite Pos2Z.inj_succ, D.
  replace (Z.max (Z.succ 53 + (e - 1) - 53) (3 - 1024 - 53) - (e - 1))%Z with 1%Z by lia.
  cbn [shr shr_record_of_loc iter_pos shr_1 shr_m shr_r shr_s orb loc_of_shr_record
       round_nearest_even Zdigits2].
  rewrite D.
  replace (Z.max (53 + (e - 1 + 1) - 53) (3 - 1024 - 53) - (e - 1 + 1))%Z with 0%Z by lia.
  cbn [shr shr_record_of_loc shr_m].
  replace (e - 1 + 1 <=? 1024 - 53)%Z with true by (symmetry; apply Z.leb_le; lia).
  replace (e - 1 + 1)%Z with e by lia.
  reflexivity.
Qed.

(** [x / 1] is [x], for every finite double [x]. *)
Lemma div_one (s : bool) (m : positive) (e : Z) :
  Double.isDouble (S754_finite s m e) = true ->
  Double.div (S754_finite s m e) (Double.ofZ 1) = S754_finite s m e.
Proof.
  intros B.
  change (bounded 53 1024 m e = true) in B.
  change (Double.ofZ 1) with (S754_finite false 4503599627370496 (-52)).
  unfold Double.div, SFdiv.
  change Double.prec with 53%Z. change Double.emax with 1024%Z.
  rewrite (div_core_one m e B).
  replace (xorb s false) with s by (destruct s; reflexivity).
  destruct ((Zpos (digits2_pos m) =? 53)%Z && (-1074 <? e)%Z) eqn:K.
  - apply andb_prop in K. destruct K as [K1 K2].
    apply Z.eqb_eq in K1. apply Z.ltb_lt in K2.
    apply round_exact_even; assumption.
  - apply round_exact. exact B.
Qed.

(** The number of binary digits of a mantissa. *)
Lemma digits2_bounds (m : positive) :
  (2 ^ (Zpos (digits2_pos m) - 1) <= Zpos m < 2 ^ Zpos (digits2_pos m))%Z.
Proof.
  induction m as [p IH | p IH |]; cbn [digits2_pos].
  - rewrite Pos2Z.inj_succ.
    replace (Z.succ (Zpos (digits2_pos p)) - 1)%Z
      with (Z.succ (Zpos (digits2_pos p) - 1)) by lia.
    rewrite !Z.pow_succ_r by lia. lia.
  - rewrite Pos2Z.inj_succ.
    replace (Z.succ (Zpos (digits2_pos p)) - 1)%Z
      with (Z.succ (Zpos (digits2_pos p) - 1)) by lia.
    rewrite !Z.pow_succ_r by lia. lia.
  - simpl. lia.
Qed.

Lemma Zdigits2_lower (m : Z) : (0 < m -> 2 ^ (Zdigits2 m - 1) <= m)%Z.
Proof.
  destruct m as [| p | p]; intros H; [lia | | lia].
  cbn [Zdigits2]. apply (digits2_bounds p).
Qed.

Lemma Zdigits2_le (m k : Z) : (0 <= m -> 0 <= k -> m < 2 ^ k -> Zdigits2 m <= k)%Z.
Proof.
  intros Hm Hk H.
  destruct (Z.eq_dec m 0) as [-> | Hz]; [simpl; lia |].
  pose proof (Zdigits2_lower m ltac:(lia)) as L.
  destruct (Z_le_gt_dec (Zdigits2 m) k) as [Hle | Hgt]; [exact Hle | exfalso].
  assert (2 ^ k <= 2 ^ (Zdigits2 m - 1))%Z by (apply Z.pow_le_mono_r; lia).
  lia.
Qed.

Lemma fexp_le (x : Z) : (x <= 1 -> fexp 53 1024 x <= -52)%Z.
Proof. unfold fexp, emin. lia. Qed.

(** Shifting a mantissa right by one place halves it. *)
Lemma shr_1_m (r : shr_record) :
  (0 <= shr_m r)%Z -> shr_m (shr_1 r) = (shr_m r / 2)%Z.
Proof.
  destruct r as [m a b]. cbn [shr_m]. intros H.
  destruct m as [| p | p]; [reflexivity | | lia].
  destruct p as [p | p |]; cbn [shr_1 shr_m].
  - rewrite Pos2Z.inj_xI. apply Z.div_unique with (r := 1%Z); lia.
  - rewrite Pos2Z.inj_xO. apply Z.div_unique with (r := 0%Z); lia.
  - reflexivity.
Qed.

Lemma iter_shr_m (p : positive) (r : shr_record) :
  (0 <= shr_m r)%Z -> shr_m (iter_pos shr_1 p r) = (shr_m r / 2 ^ Zpos p)%Z.
Proof.
  revert r. induction p as [p IH | p IH |]; intros r H; cbn [iter_pos].
  - assert (E : (2 ^ Zpos p~1 = 2 * 2 ^ Zpos p * 2 ^ Zpos p)%Z).
    { rewrite <- Z.mul_assoc, <- Z.pow_add_r, <- Z.pow_succ_r by lia. f_equal. lia. }
    assert (H1 : (0 <= shr_m (shr_1 r))%Z)
      by (rewrite shr_1_m by exact H; apply Z.div_pos; lia).
    assert (H2 : (0 <= shr_m (iter_pos shr_1 p (shr_1 r)))%Z)
      by (rewrite IH by exact H1; apply Z.div_pos; [exact H1 | apply Z.pow_pos_nonneg; lia]).
    rewrite IH by exact H2. rewrite IH by exact H1. rewrite shr_1_m by exact H.
    assert (P : (0 < 2 ^ Zpos p)%Z) by (apply Z.pow_pos_nonneg; lia).
    rewrite !Z.div_div by lia. rewrite E. f_equal. ring.
  - assert (E : (2 ^ Zpos p~0 = 2 ^ Zpos p * 2 ^ Zpos p)%Z).
    { rewrite <- Z.pow_add_r by lia. f_equal. lia. }
    assert (H2 : (0 <= shr_m (iter_pos shr_1 p r))%Z)
      by (rewrite IH by exact H; apply Z.div_pos; [exact H | apply Z.pow_pos_nonneg; lia]).
    rewrite IH by exact H2. rewrite IH by exact H.
    assert (P : (0 < 2 ^ Zpos p)%Z) by (apply Z.pow_pos_nonneg; lia).
    rewrite !Z.div_div by lia. rewrite E. reflexivity.
  - rewrite shr_1_m by exact H. reflexivity.
Qed.

Lemma shr_spec (r : shr_record) (e n : Z) :
  (0 <= shr_m r)%Z ->
  ((0 < n)%Z /\ shr_m (fst (shr r e n)) = (shr_m r / 2 ^ n)%Z
   /\ snd (shr r e n) = (e + n)%Z)
  \/ ((n <= 0)%Z /\ shr r e n = (r, e)).
Proof.
  intros H. destruct n as [| p | p].
  - right. split; [lia | reflexivity].
  - left. split; [lia |]. cbn [shr fst snd]. split; [apply iter_shr_m; exact H | reflexivity].
  - right. split; [lia | reflexivity].
Qed.

Lemma shr_record_of_loc_m (m : Z) (l : location) : shr_m (shr_record_of_loc m l) = m.
Proof. destruct l as [| c]; [reflexivity | destruct c; reflexivity]. Qed.

(** Bringing a mantissa to its place: it is divided by a power of two, or
    left as it is. *)
Lemma shr_fexp_spec (m e : Z) (l : location) :
  (0 <= m)%Z ->
  let n := (fexp 53 1024 (Zdigits2 m + e) - e)%Z in
  ((0 < n)%Z /\ shr_m (fst (shr_fexp 53 1024 m e l)) = (m / 2 ^ n)%Z
   /\ snd (shr_fexp 53 1024 m e l) = fexp 53 1024 (Zdigits2 m + e))
  \/ ((n <= 0)%Z /\ shr_fexp 53 1024 m e l = (shr_record_of_loc m l, e)).
Proof.
  intros H n. unfold shr_fexp. fold n.
  destruct (shr_spec (shr_record_of_loc m l) e n) as [[Hn [Hm He]] | [Hn E]].
  - rewrite shr_record_of_loc_m. exact H.
  - left. rewrite shr_record_of_loc_m in Hm. split; [exact Hn |]. split; [exact Hm |].
    rewrite He. unfold n. lia.
  - right. split; [exact Hn | exact E].
Qed.

Lemma round_nearest_even_bounds (m : Z) (l : location) :
  (m <= round_nearest_even m l <= m + 1)%Z.
Proof.
  destruct l as [| c]; cbn [round_nearest_even]; [lia |].
  destruct c; [destruct (Z.even m) | |]; lia.
Qed.

(** Rounding a mantissa that is not negative never gives [NaN] and keeps the
    sign. *)
Lemma round_aux_signed (s : bool) (mz ez : Z) (l : location) :
  (0 <= mz)%Z -> Double.signed s (binary_round_aux 53 1024 s mz ez l).
Proof.
  intros H. unfold binary_round_aux.
  destruct (shr_fexp 53 1024 mz ez l) as [mrs1 e1] eqn:S1.
  assert (H1 : (0 <= shr_m mrs1)%Z).
  { destruct (shr_fexp_spec mz ez l H) as [[Hn [Hm _]] | [_ E]].
    - rewrite S1 in Hm. cbn [fst] in Hm. rewrite Hm. apply Z.div_pos; [exact H |].
      apply Z.pow_pos_nonneg; lia.
    - rewrite S1 in E. injection E as -> _. rewrite shr_record_of_loc_m. exact H. }
  pose proof (round_nearest_even_bounds (shr_m mrs1) (loc_of_shr_record mrs1)) as B.
  set (m1 := round_nearest_even (shr_m mrs1) (loc_of_shr_record mrs1)) in *.
  destruct (shr_fexp 53 1024 m1 e1 loc_Exact) as [mrs2 e2] eqn:S2.
  assert (H2 : (0 <= shr_m mrs2)%Z).
  { destruct (shr_fexp_spec m1 e1 loc_Exact ltac:(lia)) as [[Hn [Hm _]] | [_ E]].
    - rewrite S2 in Hm. cbn [fst] in Hm. rewrite Hm. apply Z.div_pos; [lia |].
      apply Z.pow_pos_nonneg; lia.
    - rewrite S2 in E. injection E as -> _. cbn [shr_record_of_loc shr_m]. lia. }
  destruct (shr_m mrs2) as [| p | p]; [reflexivity | | lia].
  destruct (e2 <=? 1024 - 53)%Z; reflexivity.
Qed.

(** Rounding a value below one gives at most one: the mantissa is cut, and
    rounding up adds one unit in a last place that divides one. *)
Lemma round_aux_small (s : bool) (mz ez : Z) :
  (0 <= mz)%Z -> (ez <= 0)%Z -> (mz < 2 ^ (- ez))%Z ->
  Double.small (binary_round_aux 53 1024 s mz ez loc_Exact).
Proof.
  intros H He Hv. unfold binary_round_aux.
  destruct (shr_fexp 53 1024 mz ez loc_Exact) as [mrs1 e1] eqn:S1.
  set (m1 := round_nearest_even (shr_m mrs1) (loc_of_shr_record mrs1)).
  assert (K1 : (e1 <= 0 /\ 0 <= m1 <= 2 ^ (- e1))%Z).
  { destruct (shr_fexp_spec mz ez loc_Exact H) as [[Hn [Hm Hx]] | [_ E]].
    - rewrite S1 in Hm, Hx. cbn [fst snd] in Hm, Hx.
      assert (Hd : (Zdigits2 mz + ez <= 0)%Z).
      { pose proof (Zdigits2_le mz (- ez) H ltac:(lia) Hv). lia. }
      assert (He1 : (e1 <= -52)%Z) by (rewrite Hx; apply fexp_le; lia).
      split; [lia |].
      pose proof (round_nearest_even_bounds (shr_m mrs1) (loc_of_shr_record mrs1)) as B.
      fold m1 in B. rewrite Hm in B.
      set (n := (fexp 53 1024 (Zdigits2 mz + ez) - ez)%Z) in *.
      assert (Hq : (0 <= mz / 2 ^ n)%Z)
        by (apply Z.div_pos; [exact H | apply Z.pow_pos_nonneg; lia]).
      assert (Hlt : (mz / 2 ^ n < 2 ^ (- e1))%Z).
      { apply Z.div_lt_upper_bound; [apply Z.pow_pos_nonneg; lia |].
        rewrite <- Z.pow_add_r by lia.
        replace (n + - e1)%Z with (- ez)%Z by (unfold n; lia). exact Hv. }
      lia.
    - rewrite S1 in E. injection E as E1 E2. subst e1.
      unfold m1. rewrite E1.
      cbn [shr_record_of_loc shr_m loc_of_shr_record round_nearest_even].
      split; lia. }
  destruct K1 as [He1 [Hm1 Hv1]].
  destruct (shr_fexp 53 1024 m1 e1 loc_Exact) as [mrs2 e2] eqn:S2.
  assert (K2 : (e2 <= 0 /\ 0 <= shr_m mrs2 <= 2 ^ (- e2))%Z).
  { destruct (shr_fexp_spec m1 e1 loc_Exact Hm1) as [[Hn [Hm Hx]] | [_ E]].
    - rewrite S2 in Hm, Hx. cbn [fst snd] in Hm, Hx.
      assert (Hd : (Zdigits2 m1 + e1 <= 1)%Z).
      { assert (U : (m1 < 2 ^ (- e1 + 1))%Z) by (rewrite Z.pow_add_r by lia; lia).
        pose proof (Zdigits2_le m1 (- e1 + 1) Hm1 ltac:(lia) U). lia. }
      assert (He2 : (e2 <= -52)%Z) by (rewrite Hx; apply fexp_le; lia).
      split; [lia |]. rewrite Hm.
      set (n := (fexp 53 1024 (Zdigits2 m1 + e1) - e1)%Z) in *.
      split; [apply Z.div_pos; [exact Hm1 | apply Z.pow_pos_nonneg; lia] |].
      apply Z.div_le_upper_bound; [apply Z.pow_pos_nonneg; lia |].
      rewrite <- Z.pow_add_r by lia.
      replace (n + - e2)%Z with (- e1)%Z by (unfold n; lia). exact Hv1.
    - rewrite S2 in E. injection E as E1 E2. subst e2. rewrite E1.
      cbn [shr_record_of_loc shr_m]. split; lia. }
  destruct K2 as [He2 [Hm2 Hv2]].
  destruct (shr_m mrs2) as [| p | p]; [exact I | | lia].
  replace (e2 <=? 1024 - 53)%Z with true by (symmetry; apply Z.leb_le; lia).
  split; [exact He2 | exact Hv2].
Qed.

Lemma iter_xO (m d : positive) : Zpos (Pos.iter xO m d) = (Zpos m * 2 ^ Zpos d)%Z.
Proof.
  induction d as [| d IH] using Pos.peano_ind.
  - cbn [Pos.iter]. lia.
  - rewrite Pos.iter_succ, Pos2Z.inj_xO, IH, Pos2Z.inj_succ, Z.pow_succ_r by lia. ring.
Qed.

(** Aligning a mantissa to a lower exponent multiplies it by a power of
    two. *)
Lemma shl_align_spec (mx : positive) (ex ex' : Z) :
  snd (shl_align mx ex ex') = Z.min ex ex'
  /\ Zpos (fst (shl_align mx ex ex')) = (Zpos mx * 2 ^ (ex - Z.min ex ex'))%Z.
Proof.
  unfold shl_align. destruct (ex' - ex)%Z as [| d | d] eqn:E; cbn [fst snd].
  - replace (Z.min ex ex') with ex by lia. rewrite Z.sub_diag. split; lia.
  - replace (Z.min ex ex') with ex by lia. rewrite Z.sub_diag. split; lia.
  - replace (Z.min ex ex') with ex' by lia. split; [reflexivity |].
    rewrite iter_xO. f_equal. f_equal. lia.
Qed.

Lemma binary_round_signed (s : bool) (m : positive) (e : Z) :
  Double.signed s (binary_round 53 1024 s m e).
Proof.
  unfold binary_round.
  destruct (shl_align m e (fexp 53 1024 (Zpos (digits2_pos m) + e))) as [mz ez].
  apply round_aux_signed. lia.
Qed.

Lemma binary_round_small (s : bool) (m : positive) (e : Z) :
  (e <= 0)%Z -> (Zpos m < 2 ^ (- e))%Z -> Double.small (binary_round 53 1024 s m e).
Proof.
  intros He Hv. unfold binary_round.
  pose proof (shl_align_spec m e (fexp 53 1024 (Zpos (digits2_pos m) + e))) as [A B].
  destruct (shl_align m e (fexp 53 1024 (Zpos (digits2_pos m) + e))) as [mz ez].
  cbn [fst snd] in A, B.
  set (f := fexp 53 1024 (Zpos (digits2_pos m) + e)) in *.
  apply round_aux_small; [lia | lia |].
  rewrite B.
  replace (- ez)%Z with (- e + (e - Z.min e f))%Z by lia.
  rewrite Z.pow_add_r by lia.
  apply Z.mul_lt_mono_pos_r; [apply Z.pow_pos_nonneg; lia | exact Hv].
Qed.

Lemma signed_not_below (y : Double.number) :
  Double.signed false y -> Double.notBelowMinusOne y = true.
Proof. destruct y as [s | s | | s m e]; cbn; intros H; try subst s; auto. Qed.

Lemma signed_not_negative (y : Double.number) :
  Double.signed false y -> Double.notNegative y = true.
Proof.
  destruct y as [s | s | | s m e]; cbn; intros H; try subst s; auto; contradiction.
Qed.

Lemma small_not_below (y : Double.number) :
  Double.signed true y -> Double.small y -> Double.notBelowMinusOne y = true.
Proof.
  destruct y as [s | s | | s m e]; cbn; intros H K; try contradiction; auto.
  subst s. destruct K as [K1 K2].
  apply andb_true_intro. split; [apply Z.leb_le | apply Z.leb_le]; assumption.
Qed.

(** The mantissa of one, aligned to a lower exponent. *)
Lemma one_mantissa (ez : Z) :
  (ez <= -52)%Z ->
  Zpos (fst (shl_align 4503599627370496 (-52) ez)) = (2 ^ (- ez))%Z.
Proof.
  intros H. destruct (shl_align_spec 4503599627370496 (-52) ez) as [_ B].
  rewrite B. replace (Z.min (-52) ez) with ez by lia.
  change (Zpos 4503599627370496) with (2 ^ 52)%Z.
  rewrite <- Z.pow_add_r by lia. f_equal. lia.
Qed.

(** [x - 1] is not below [-1] for a positive [x]. *)
Lemma sub_one_not_below (mx : positive) (ex : Z) :
  Double.notBelowMinusOne (Double.sub (S754_finite false mx ex) (Double.ofZ 1)) = true.
Proof.
  change (Double.ofZ 1) with (S754_finite false 4503599627370496 (-52)).
  unfold Double.sub, SFsub. change Double.prec with 53%Z. change Double.emax with 1024%Z.
  cbn [cond_Zopp].
  set (ez := Z.min ex (-52)).
  pose proof (one_mantissa ez ltac:(unfold ez; lia)) as Hb.
  set (a := fst (shl_align mx ex ez)) in *.
  set (b := fst (shl_align 4503599627370496 (-52) ez)) in *.
  destruct (Zpos a - Zpos b)%Z as [| p | p] eqn:E; cbn [binary_normalize].
  - reflexivity.
  - apply signed_not_below. apply binary_round_signed.
  - apply small_not_below; [apply binary_round_signed |].
    apply binary_round_small; [unfold ez; lia |]. lia.
Qed.

(** [1 + y] is not negative for a [y] that is not below [-1]. *)
Lemma add_one_not_negative (y : Double.number) :
  Double.notBelowMinusOne y = true ->
  Double.notNegative (Double.add (Double.ofZ 1) y) = true.
Proof.
  change (Double.ofZ 1) with (S754_finite false 4503599627370496 (-52)).
  destruct y as [s | s | | s m e]; cbn [Double.notBelowMinusOne]; intros H;
    try discriminate.
  - reflexivity.
  - destruct s; [discriminate | reflexivity].
  - unfold Double.add, SFadd. change Double.prec with 53%Z. change Double.emax with 1024%Z.
    set (ez := Z.min (-52) e).
    pose proof (one_mantissa ez ltac:(unfold ez; lia)) as Hb.
    destruct (shl_align_spec m e ez) as [_ Hc].
    set (b := fst (shl_align 4503599627370496 (-52) ez)) in *.
    set (c := fst (shl_align m e ez)) in *.
    destruct s; cbn [cond_Zopp].
    + apply andb_prop in H. destruct H as [He Hm].
      apply Z.leb_le in He. apply Z.leb_le in Hm.
      assert (Hle : (Zpos c <= Zpos b)%Z).
      { rewrite Hc, Hb. replace (Z.min e ez) with ez by (unfold ez; lia).
        replace (- ez)%Z with (- e + (e - ez))%Z by lia.
        rewrite Z.pow_add_r by (unfold ez; lia).
        apply Z.mul_le_mono_nonneg_r; [apply Z.pow_nonneg; lia | exact Hm]. }
      destruct (Zpos b + - Zpos c)%Z as [| p | p] eqn:E; cbn [binary_normalize].
      * reflexivity.
      * apply signed_not_negative. apply binary_round_signed.
      * lia.
    + destruct (Zpos b + Zpos c)%Z as [| p | p] eqn:E; cbn [binary_normalize].
      * reflexivity.
      * apply signed_not_negative. apply binary_round_signed.
      * lia.
Qed.

(** The quotient of two positive numbers is not [NaN] and not negative. *)
Lemma div_signed (ml mp : positive) (el ep : Z) :
  Double.signed false (Double.div (S754_finite false ml el) (S754_finite false mp ep)).
Proof.
  unfold Double.div, SFdiv. change Double.prec with 53%Z. change Double.emax with 1024%Z.
  cbn [xorb].
  destruct (SFdiv_core_binary 53 1024 (Zpos ml) el (Zpos mp) ep) as [[mz ez] lz] eqn:C.
  apply round_aux_signed.
  unfold SFdiv_core_binary in C.
  set (s := (el - ep
             - Z.min (fexp 53 1024 (Zdigits2 (Zpos ml) + el - (Zdigits2 (Zpos mp) + ep)))
                     (el - ep))%Z) in *.
  set (m' := match s with
             | Zpos _ => Z.shiftl (Zpos ml) s
             | Z0 => Zpos ml
             | Zneg _ => 0%Z
             end) in *.
  assert (Hm : (0 <= m')%Z).
  { unfold m'. destruct s; [lia | apply Z.shiftl_nonneg; lia | lia]. }
  rewrite (surjective_pairing (Z.div_eucl m' (Zpos mp))) in C.
  injection C as C1 C2 C3. rewrite <- C1.
  change (fst (Z.div_eucl m' (Zpos mp))) with (m' / Zpos mp)%Z.
  apply Z.div_pos; lia.
Qed.

(** For two positive readings the derived inflation rate is not below [-1]
    and the growth base is not negative; neither is [NaN]. *)
Lemma inflation_base (ml mp : positive) (el ep : Z) :
  let i := Double.inflationRate (Double.finite false ml el) (Double.finite false mp ep) in
  Double.notBelowMinusOne i = true
  /\ Double.notNegative (Double.add (Double.ofZ 1) i) = true.
Proof.
  intros i.
  assert (A : Double.notBelowMinusOne i = true).
  { unfold i, Double.inflationRate, Double.finite.
    pose proof (div_signed ml mp el ep) as S.
    destruct (Double.div (S754_finite false ml el) (S754_finite false mp ep))
      as [s | s | | s m e]; cbn [Double.signed] in S; try contradiction; subst s.
    - reflexivity.
    - reflexivity.
    - apply sub_one_not_below. }
  split; [exact A | apply add_one_not_negative; exact A].
Qed.

(** The sum [0 * x + q * y] for a zero [q]: a zero when [x] and [y] are
    finite, [NaN] otherwise. *)
Lemma zero_terms (s : bool) (x q y : Double.number) :
  Double.isZero q = true ->
  Double.isZero (Double.add (Double.mul (Double.zero s) x) (Double.mul q y))
  = Double.isFinite x && Double.isFinite y
  /\ Double.isNaN (Double.add (Double.mul (Double.zero s) x) (Double.mul q y))
     = negb (Double.isFinite x && Double.isFinite y).
Proof.
  destruct q as [sq | | |]; try discriminate. intros _.
  destruct x as [sx | sx | | sx mx ex], y as [sy | sy | | sy my ey];
    destruct s, sq; try destruct sx; try destruct sy; split; reflexivity.
Qed.

(** When [1 - 1/f] is finite, [f] is neither zero nor [NaN], and [0 / f] is
    a zero. *)
Lemma zero_quotient (s : bool) (f : Double.number) :
  Double.isFinite (Double.sub (Double.ofZ 1) (Double.div (Double.ofZ 1) f)) = true ->
  Double.isZero (Double.div (Double.zero s) f) = true.
Proof.
  destruct f as [sf | sf | | sf mf ef].
  - destruct sf; vm_compute; discriminate.
  - intros _. reflexivity.
  - vm_compute. discriminate.
  - intros _. reflexivity.
Qed.

(** Zero times an infinity or [NaN] is [NaN], and so is every sum with it. *)
Lemma zero_times_nonfinite (s : bool) (x c : Double.number) :
  Double.isFinite x = false ->
  Double.add (Double.mul (Double.zero s) x) c = Double.nan.
Proof.
  destruct x as [sx | sx | | sx mx ex]; try discriminate; intros _; reflexivity.
Qed.

(** The product [(0 / f) * y]: a zero when [f] is neither [NaN] nor zero and
    [y] is finite, [NaN] otherwise. *)
Lemma zero_quotient_times (s : bool) (f y : Double.number) :
  Double.isZero (Double.mul (Double.div (Double.zero s) f) y)
  = negb (Double.isNaN f) && negb (Double.isZero f) && Double.isFinite y
  /\ Double.isNaN (Double.mul (Double.div (Double.zero s) f) y)
     = negb (negb (Double.isNaN f) && negb (Double.isZero f) && Double.isFinite y).
Proof.
  destruct f as [sf | sf | | sf mf ef], y as [sy | sy | | sy my ey];
    destruct s; try destruct sf; try destruct sy; split; reflexivity.
Qed.

(** With a growth factor and a savings growth of one, both terms of the loss
    of a finite amount are zero. *)
Lemma unit_factors (P : Double.number) :
  Double.isDouble P = true -> Double.isFinite P = true ->
  Double.isZero
    (Double.add
       (Double.mul P (Double.sub (Double.ofZ 1) (Double.div (Double.ofZ 1) (Double.ofZ 1))))
       (Double.mul (Double.div P (Double.ofZ 1))
                   (Double.sub (Double.ofZ 1) (Double.ofZ 1)))) = true
  /\ Double.isZero
       (Double.mul (Double.div P (Double.ofZ 1))
                   (Double.sub (Double.ofZ 1) (Double.ofZ 1))) = true.
Proof.
  intros V F.
  change (Double.sub (Double.ofZ 1) (Double.div (Double.ofZ 1) (Double.ofZ 1)))
    with (Double.zero false).
  change (Double.sub (Double.ofZ 1) (Double.ofZ 1)) with (Double.zero false).
  destruct P as [sp | sp | | sp mp ep]; try discriminate.
  - destruct sp; split; reflexivity.
  - rewrite (div_one sp mp ep V). destruct sp; split; reflexivity.
Qed.

End DoubleFacts.

(** C6, in double precision and for every [Math.pow].  With a zero amount
    [computeLoss] returns zero exactly when its two bracketed factors,
    [1 - 1/(1+i)^n] and [(1+r)^n - 1], are finite numbers, and [NaN] in every
    other case: a power that is [NaN], a power or a reciprocal that
    overflows to an infinity, a growth factor of zero.  The
    opportunity-cost-only loss of the earlier calculator is zero exactly when
    the growth factor is neither [NaN] nor zero and [(1+r)^n - 1] is finite,
    and [NaN] otherwise.  With no inflation and no interest every finite
    amount loses nothing, at every horizon [n] for which [Math.pow(1, n)] is
    [1]. *)
Theorem computeLoss_zero
    (pow : Double.number -> Double.number -> Double.number) (s : bool)
    (i r n P : Double.number) :
  let factor := pow (Double.add (Double.ofZ 1) i) n in
  let erosion := Double.sub (Double.ofZ 1) (Double.div (Double.ofZ 1) factor) in
  let growth := Double.sub (pow (Double.add (Double.ofZ 1) r) n) (Double.ofZ 1) in
  Double.isZero (Double.computeLoss pow (Double.zero s) i r n)
  = Double.isFinite erosion && Double.isFinite growth
  /\ Double.isNaN (Double.computeLoss pow (Double.zero s) i r n)
     = negb (Double.isFinite erosion && Double.isFinite growth)
  /\ Double.isZero (Double.computeLossV0 pow (Double.zero s) i r n)
     = negb (Double.isNaN factor) && negb (Double.isZero factor) && Double.isFinite growth
  /\ Double.isNaN (Double.computeLossV0 pow (Double.zero s) i r n)
     = negb (negb (Double.isNaN factor) && negb (Double.isZero factor)
             && Double.isFinite growth)
  /\ (Double.isDouble P = true -> Double.isFinite P = true ->
      pow (Double.ofZ 1) n = Double.ofZ 1 ->
      Double.isZero
        (Double.computeLoss pow P (Double.zero false) (Double.zero false) n) = true
      /\ Double.isZero
           (Double.computeLossV0 pow P (Double.zero false) (Double.zero false) n) = true).
Proof.
  intros factor erosion growth.
  assert (Full :
    Double.isZero (Double.computeLoss pow (Double.zero s) i r n)
    = Double.isFinite erosion && Double.isFinite growth
    /\ Double.isNaN (Double.computeLoss pow (Double.zero s) i r n)
       = negb (Double.isFinite erosion && Double.isFinite growth)).
  { unfold Double.computeLoss. fold factor. fold erosion. fold growth.
    destruct (Double.isFinite erosion) eqn:E.
    - rewrite <- E. apply DoubleFacts.zero_terms. apply DoubleFacts.zero_quotient. exact E.
    - rewrite DoubleFacts.zero_times_nonfinite by exact E. split; reflexivity. }
  destruct Full as [F1 F2].
  destruct (DoubleFacts.zero_quotient_times s factor growth) as [V1 V2].
  split; [exact F1 |]. split; [exact F2 |]. split; [exact V1 |]. split; [exact V2 |].
  intros V F H1. unfold Double.computeLoss, Double.computeLossV0.
  change (Double.add (Double.ofZ 1) (Double.zero false)) with (Double.ofZ 1).
  rewrite H1. apply DoubleFacts.unit_factors; assumption.
Qed.

(** Three runs: rates of 100 percent at one year, where [Math.pow(b, 1)] is
    [b]; a savings growth that overflows, as [Math.pow(2, 1024)] does; and
    the amount 10000 without inflation and interest. *)
Lemma computeLoss_zero_witness :
  Double.isZero
    (Double.computeLoss (fun b _ => b)
       (Double.zero false) (Double.ofZ 1) (Double.ofZ 1) (Double.ofZ 1)) = true
  /\ Double.isNaN
       (Double.computeLoss
          (fun b _ => if SpecFloat.SFeqb b (Double.ofZ 1) then b else Double.infinity false)
          (Double.zero false) (Double.zero false) (Double.ofZ 1) (Double.ofZ 1024)) = true
  /\ Double.isZero
       (Double.computeLoss (fun b _ => b)
          (Double.ofZ 10000) (Double.zero false) (Double.zero false) (Double.ofZ 1)) = true.
Proof.
  split; [| split].
  - rewrite (proj1 (computeLoss_zero (fun b _ => b) false
                      (Double.ofZ 1) (Double.ofZ 1) (Double.ofZ 1) (Double.ofZ 1))).
    reflexivity.
  - rewrite (proj1 (proj2 (computeLoss_zero
                             (fun b _ => if SpecFloat.SFeqb b (Double.ofZ 1) then b
                                         else Double.infinity false)
                             false (Double.zero false) (Double.ofZ 1) (Double.ofZ 1024)
                             (Double.ofZ 1)))).
    reflexivity.
  - apply (proj2 (proj2 (proj2 (proj2
             (computeLoss_zero (fun b _ => b) false
                (Double.ofZ 1) (Double.ofZ 1) (Double.ofZ 1) (Double.ofZ 10000))))));
      reflexivity.
Defined.

(** C6 does not hold for every savings rate and horizon: with a zero amount,
    no inflation, a savings rate of [-3] (savings base [-2]) and a horizon of
    half a year, the power [(-2) ^ 0.5] is [NaN] and so is the loss. *)
Lemma computeLoss_zero_amount_NaN :
  0 < 1 + 0 /\ 0 < 1 / 2
  /\ Calc.computeLoss (Fin 0) (Fin 0) (Fin (-3)) (Fin (1 / 2)) = NaN
  /\ Calc.computeLoss (Fin 0) (Fin 0) (Fin (-3)) (Fin (1 / 2)) <> Fin 0.
Proof.
  assert (E : Calc.computeLoss (Fin 0) (Fin 0) (Fin (-3)) (Fin (1 / 2)) = NaN).
  { apply computeLoss_undefined; [lra |].
    rewrite add_Fin. rewrite pow_neg_base by lra.
    rewrite half_not_integral. reflexivity. }
  repeat split; try lra; rewrite ?E; [reflexivity | discriminate].
Qed.

(** ** Growth of the loss with the horizon *)

(** The inverse growth factor [1/(1+i)^n] falls strictly with [n] when
    [i > 0]. *)
Lemma inv_factor_decreasing (i m n : R) :
  0 < i -> m < n -> / Rpower (1 + i) n < / Rpower (1 + i) m.
Proof.
  intros Hi Hmn.
  pose proof (Rpower_pos (1 + i) m) as Hm.
  pose proof (Rpower_pos (1 + i) n) as Hn.
  apply Rinv_lt_contravar.
  - apply Rmult_lt_0_compat; assumption.
  - apply Rpower_lt; lra.
Qed.

(** The savings growth in today's money, [(1+r)^n / (1+i)^n], does not fall
    with [n] when [r >= i]. *)
Lemma real_growth_monotone (i r m n : R) :
  0 < 1 + i -> i <= r -> m <= n ->
  Rpower (1 + r) m * / Rpower (1 + i) m <= Rpower (1 + r) n * / Rpower (1 + i) n.
Proof.
  intros Hi Hir Hmn. unfold Rpower.
  rewrite <- !exp_Ropp, <- !exp_plus.
  assert (Hln : ln (1 + i) <= ln (1 + r)).
  { destruct (Req_dec_T i r) as [-> | Hne]; [lra |].
    left. apply ln_increasing; lra. }
  destruct (Req_dec_T (m * ln (1 + r) + - (m * ln (1 + i)))
                      (n * ln (1 + r) + - (n * ln (1 + i)))) as [-> | Hne]; [lra |].
  left. apply exp_increasing. nra.
Qed.

(** On positive bases [computeLoss] evaluates the expression whose real value
    is [Exact.computeLoss]. *)
Lemma computeLoss_exact (P i r n : R) :
  0 < 1 + i -> 0 < 1 + r ->
  Calc.computeLoss (Fin P) (Fin i) (Fin r) (Fin n) = Fin (Exact.computeLoss P i r n)
  /\ CalcV0.computeLoss (Fin P) (Fin i) (Fin r) (Fin n) = Fin (Exact.computeLossV0 P i r n).
Proof.
  intros Hi Hr. split.
  - apply (computeLoss_real P i r n _ Hi). apply factor_pos. exact Hr.
  - apply (computeLossV0_real P i r n _ Hi). apply factor_pos. exact Hr.
Qed.

(** In double precision the loss of [P = 1] at [i = r = 1] is [2] at the
    horizons 60 and 70 alike, for every [Math.pow] that gives the powers of
    two [2 ^ 60] and [2 ^ 70] exactly: [1 - 2 ^ -60] rounds to [1] and
    [2 ^ 60 - 1] rounds to [2 ^ 60]. *)
Lemma computeLoss_double_plateau
    (pow : Double.number -> Double.number -> Double.number) :
  pow (Double.ofZ 2) (Double.ofZ 60) = Double.ofZ (2 ^ 60) ->
  pow (Double.ofZ 2) (Double.ofZ 70) = Double.ofZ (2 ^ 70) ->
  Double.computeLoss pow (Double.ofZ 1) (Double.ofZ 1) (Double.ofZ 1) (Double.ofZ 60)
  = Double.ofZ 2
  /\ Double.computeLoss pow (Double.ofZ 1) (Double.ofZ 1) (Double.ofZ 1) (Double.ofZ 70)
     = Double.ofZ 2
  /\ Double.computeLossV0 pow (Double.ofZ 1) (Double.ofZ 1) (Double.ofZ 1) (Double.ofZ 60)
     = Double.ofZ 1
  /\ Double.computeLossV0 pow (Double.ofZ 1) (Double.ofZ 1) (Double.ofZ 1) (Double.ofZ 70)
     = Double.ofZ 1.
Proof.
  intros H60 H70. unfold Double.computeLoss, Double.computeLossV0.
  change (Double.add (Double.ofZ 1) (Double.ofZ 1)) with (Double.ofZ 2).
  rewrite H60, H70. repeat split; vm_compute; reflexivity.
Qed.

(** C7, over the reals and for a savings rate not below inflation.  For an
    amount [P > 0] and rates [0 < i <= r], the real value of the expression
    that [computeLoss] evaluates grows strictly with the horizon over the
    positive reals, for the full loss and for the opportunity-cost-only loss
    of the earlier calculator.  The doubles that [computeLoss] returns are
    not strictly ordered: with [P = i = r = 1] the horizons 60 and 70 give
    the same result. *)
Theorem computeLoss_increasing (P i r m n : R) :
  0 < P -> 0 < i -> i <= r -> 0 < m -> m < n ->
  Exact.computeLoss P i r m < Exact.computeLoss P i r n
  /\ Exact.computeLossV0 P i r m < Exact.computeLossV0 P i r n
  /\ (forall pow : Double.number -> Double.number -> Double.number,
        pow (Double.ofZ 2) (Double.ofZ 60) = Double.ofZ (2 ^ 60) ->
        pow (Double.ofZ 2) (Double.ofZ 70) = Double.ofZ (2 ^ 70) ->
        Double.computeLoss pow (Double.ofZ 1) (Double.ofZ 1) (Double.ofZ 1) (Double.ofZ 60)
        = Double.computeLoss pow (Double.ofZ 1) (Double.ofZ 1) (Double.ofZ 1) (Double.ofZ 70)
        /\ Double.computeLossV0 pow (Double.ofZ 1) (Double.ofZ 1) (Double.ofZ 1) (Double.ofZ 60)
           = Double.computeLossV0 pow (Double.ofZ 1) (Double.ofZ 1) (Double.ofZ 1)
               (Double.ofZ 70)).
Proof.
  intros HP Hi Hir Hm Hmn.
  assert (Hi1 : 0 < 1 + i) by lra.
  assert (Hr1 : 0 < 1 + r) by lra.
  split; [| split].
  3: { intros pow H60 H70.
       destruct (computeLoss_double_plateau pow H60 H70) as [A [B [C D]]].
       rewrite A, B, C, D. split; reflexivity. }
  all: unfold Exact.computeLoss, Exact.computeLossV0; cbv zeta;
    pose proof (inv_factor_decreasing i m n Hi Hmn) as Hu;
    pose proof (real_growth_monotone i r m n Hi1 Hir (Rlt_le _ _ Hmn)) as Hv;
    pose proof (Rpower_pos (1 + i) m) as Hgm;
    pose proof (Rpower_pos (1 + i) n) as Hgn;
    set (um := / Rpower (1 + i) m) in *;
    set (un := / Rpower (1 + i) n) in *;
    set (hm := Rpower (1 + r) m) in *;
    set (hn := Rpower (1 + r) n) in *.
  - replace (P * (1 - 1 / Rpower (1 + i) m) + P / Rpower (1 + i) m * (hm - 1))
      with (P * (1 - 2 * um + hm * um)) by (unfold Rdiv; fold um; ring).
    replace (P * (1 - 1 / Rpower (1 + i) n) + P / Rpower (1 + i) n * (hn - 1))
      with (P * (1 - 2 * un + hn * un)) by (unfold Rdiv; fold un; ring).
    apply Rmult_lt_compat_l; lra.
  - replace (P / Rpower (1 + i) m * (hm - 1))
      with (P * (hm * um - um)) by (unfold Rdiv; fold um; ring).
    replace (P / Rpower (1 + i) n * (hn - 1))
      with (P * (hn * un - un)) by (unfold Rdiv; fold un; ring).
    apply Rmult_lt_compat_l; lra.
Qed.

Lemma computeLoss_increasing_witness :
  Exact.computeLoss 10000 (21 / 1000) (4 / 100) 5
  < Exact.computeLoss 10000 (21 / 1000) (4 / 100) 10
  /\ Exact.computeLossV0 10000 (21 / 1000) (4 / 100) 5
     < Exact.computeLossV0 10000 (21 / 1000) (4 / 100) 10
  /\ (forall pow : Double.number -> Double.number -> Double.number,
        pow (Double.ofZ 2) (Double.ofZ 60) = Double.ofZ (2 ^ 60) ->
        pow (Double.ofZ 2) (Double.ofZ 70) = Double.ofZ (2 ^ 70) ->
        Double.computeLoss pow (Double.ofZ 1) (Double.ofZ 1) (Double.ofZ 1) (Double.ofZ 60)
        = Double.computeLoss pow (Double.ofZ 1) (Double.ofZ 1) (Double.ofZ 1) (Double.ofZ 70)
        /\ Double.computeLossV0 pow (Double.ofZ 1) (Double.ofZ 1) (Double.ofZ 1) (Double.ofZ 60)
           = Double.computeLossV0 pow (Double.ofZ 1) (Double.ofZ 1) (Double.ofZ 1)
               (Double.ofZ 70)).
Proof.
  apply (computeLoss_increasing 10000 (21 / 1000) (4 / 100) 5 10); lra.
Defined.

Lemma Rpower_nat (x : R) (k : nat) : 0 < x -> Rpower x (INR k) = x ^ k.
Proof. intros Hx. apply Rpower_pow. exact Hx. Qed.

(** C7 does not hold when inflation exceeds the savings rate: with [P = 1],
    inflation [i = 3] and savings rate [r = 1] the loss is [9/8] after two
    years and [35/32] after three. *)
Lemma computeLoss_not_increasing :
  0 < 1 /\ 0 < 3 /\ 0 < 1 /\ 0 < 2 /\ 2 < 3
  /\ Calc.computeLoss (Fin 1) (Fin 3) (Fin 1) (Fin 2) = Fin (9 / 8)
  /\ Calc.computeLoss (Fin 1) (Fin 3) (Fin 1) (Fin 3) = Fin (35 / 32)
  /\ lt (Calc.computeLoss (Fin 1) (Fin 3) (Fin 1) (Fin 2))
        (Calc.computeLoss (Fin 1) (Fin 3) (Fin 1) (Fin 3)) = false.
Proof.
  assert (P42 : Rpower (1 + 3) 2 = 16).
  { replace 2 with (INR 2) by (simpl; lra). rewrite Rpower_nat by lra. simpl. lra. }
  assert (P43 : Rpower (1 + 3) 3 = 64).
  { replace 3 with (INR 3) at 2 by (simpl; lra). rewrite Rpower_nat by lra. simpl. lra. }
  assert (P22 : Rpower (1 + 1) 2 = 4).
  { replace 2 with (INR 2) by (simpl; lra). rewrite Rpower_nat by lra. simpl. lra. }
  assert (P23 : Rpower (1 + 1) 3 = 8).
  { replace 3 with (INR 3) by (simpl; lra). rewrite Rpower_nat by lra. simpl. lra. }
  assert (E2 : Calc.computeLoss (Fin 1) (Fin 3) (Fin 1) (Fin 2) = Fin (9 / 8)).
  { rewrite (computeLoss_real 1 3 1 2 4) by (lra || (rewrite factor_pos by lra; f_equal; exact P22)).
    f_equal. rewrite P42. lra. }
  assert (E3 : Calc.computeLoss (Fin 1) (Fin 3) (Fin 1) (Fin 3) = Fin (35 / 32)).
  { rewrite (computeLoss_real 1 3 1 3 8) by (lra || (rewrite factor_pos by lra; f_equal; exact P23)).
    f_equal. rewrite P43. lra. }
  rewrite E2, E3. repeat split; try lra.
  unfold lt. apply Rltb_false. lra.
Qed.

(** ** Rate derivation *)

Import Reads.

Lemma and_then_get (a : value) (k : string) :
  and_then a (fun c => get c k) = Ok (guarded a k).
Proof.
  unfold and_then, guarded. destruct (truthy a) eqn:T; [| reflexivity].
  destruct a; simpl in *; try discriminate; reflexivity.
Qed.

Lemma truthy_guarded (a : value) (k : string) :
  truthy (guarded a k) = true -> truthy a = true /\ guarded a k = Spec.field k a.
Proof.
  unfold guarded. destruct (truthy a) eqn:T; intros H.
  - split; reflexivity.
  - rewrite T in H. discriminate.
Qed.

Lemma get_truthy (a : value) (k : string) :
  truthy a = true -> get a k = Ok (Spec.field k a).
Proof. destruct a; simpl; try discriminate; reflexivity. Qed.

(** The value of [country && country.rate && country.rate.value]. *)
Lemma rate_value_read (country : value) :
  and_then (guarded country "rate")
    (fun _ => r <- get country "rate" ;; get r "value")
  = Ok (guarded (guarded country "rate") "value").
Proof.
  assert (E : guarded (guarded country "rate") "value"
              = if truthy (guarded country "rate")
                then Spec.field "value" (guarded country "rate")
                else guarded country "rate") by reflexivity.
  rewrite E. unfold and_then.
  destruct (truthy (guarded country "rate")) eqn:T; [| reflexivity].
  destruct (truthy_guarded _ _ T) as [Tc F].
  rewrite (get_truthy _ _ Tc). cbn [bind]. rewrite <- F.
  apply get_truthy. exact T.
Qed.

(** [getInputs] never throws: it reads three guarded values and derives the
    rates from them. *)
Lemma getInputs_reads (country : value) :
  Calc.getInputs country
  = Ok (ratesOf (guarded (guarded country "cpi") "latest")
                (guarded (guarded country "cpi") "previous")
                (guarded (guarded country "rate") "value")).
Proof.
  unfold Calc.getInputs, ratesOf.
  repeat (rewrite and_then_get; cbn [bind]).
  destruct (Calc.parseFiniteNumber (guarded (guarded country "cpi") "latest")); [| reflexivity].
  destruct (Calc.parseFiniteNumber (guarded (guarded country "cpi") "previous")); [| reflexivity].
  destruct (le n (Fin 0) || le n0 (Fin 0)); [reflexivity |].
  repeat (rewrite ?and_then_get; cbn [bind]).
  rewrite rate_value_read. reflexivity.
Qed.

Lemma parseFiniteNumber_Fin (x : R) :
  Calc.parseFiniteNumber (VNumber (Fin x)) = Some (Fin x).
Proof. reflexivity. Qed.

Lemma parseFiniteNumber_finite (v : value) (n : number) :
  Calc.parseFiniteNumber v = Some n -> exists x : R, n = Fin x.
Proof.
  unfold Calc.parseFiniteNumber.
  set (num := match v with VNumber n0 => n0 | _ => parseFloat v end).
  destruct num; simpl; intros H; try discriminate.
  injection H as <-. eexists. reflexivity.
Qed.

Lemma missing_not_parsed (v : value) :
  Spec.missing v -> Calc.parseFiniteNumber v = None.
Proof. intros [-> | ->]; reflexivity. Qed.

Lemma nonFinite_not_parsed (v : value) :
  Spec.nonFinite v -> Calc.parseFiniteNumber v = None.
Proof. intros [-> | [-> | ->]]; reflexivity. Qed.

Lemma unusable_rejected (v : value) : Spec.unusableIndex v -> rejected v.
Proof.
  intros [H | [H | [x [-> Hx]]]].
  - left. apply missing_not_parsed. exact H.
  - left. apply nonFinite_not_parsed. exact H.
  - right. exists x. split; [reflexivity | exact Hx].
Qed.

Lemma falsy_rejected (v : value) : truthy v = false -> rejected v.
Proof.
  destruct v as [| | b | n | s | fs]; simpl; intros H; try discriminate.
  - left. reflexivity.
  - left. reflexivity.
  - subst b. left. reflexivity.
  - destruct n as [x | | |]; try discriminate.
    + right. exists x. split; [reflexivity |].
      unfold Reqb in H. destruct (Req_dec_T x 0); [lra | discriminate].
    + left. reflexivity.
  - destruct s; [left; reflexivity | discriminate].
Qed.

Lemma rejected_no_rates (latest previous rate : value) :
  rejected latest \/ rejected previous -> ratesOf latest previous rate = None.
Proof.
  unfold ratesOf. intros [[H | [x [H Hx]]] | [H | [x [H Hx]]]]; rewrite H.
  - reflexivity.
  - destruct (Calc.parseFiniteNumber previous) as [p |]; [| reflexivity].
    simpl. rewrite Rleb_true by exact Hx. reflexivity.
  - destruct (Calc.parseFiniteNumber latest); reflexivity.
  - destruct (Calc.parseFiniteNumber latest) as [l |]; [| reflexivity].
    simpl le at 2. rewrite Rleb_true by exact Hx. rewrite orb_true_r. reflexivity.
Qed.

(** What [cpi && cpi.k] reads: the field of the record's [cpi] object, or a
    value the guard turns away. *)
Lemma cpi_read (country : value) (k : string) :
  guarded (guarded country "cpi") k = Spec.field k (Spec.field "cpi" country)
  \/ rejected (guarded (guarded country "cpi") k).
Proof.
  destruct (truthy (guarded country "cpi")) eqn:T.
  - left. destruct (truthy_guarded _ _ T) as [_ E].
    unfold guarded at 1. rewrite T, E. reflexivity.
  - right. unfold guarded at 1. rewrite T. apply falsy_rejected. exact T.
Qed.

Lemma unusable_read_rejected (country : value) (k : string) :
  Spec.unusableIndex (Spec.field k (Spec.field "cpi" country)) ->
  rejected (guarded (guarded country "cpi") k).
Proof.
  intros H. destruct (cpi_read country k) as [E | R]; [| exact R].
  rewrite E. apply unusable_rejected. exact H.
Qed.

(** C3. When the latest or the previous CPI index value of a country record
    is missing, non-finite, or not positive, [getInputs] returns [null]: it
    neither throws nor returns rates.  A record with [previous = 0] is such a
    record. *)
Theorem getInputs_unavailable (country : value) :
  Spec.unusableIndex (Spec.latestIndexValue country)
  \/ Spec.unusableIndex (Spec.previousIndexValue country) ->
  Calc.getInputs country = Ok None.
Proof.
  intros H. rewrite getInputs_reads. f_equal.
  apply rejected_no_rates.
  destruct H as [H | H]; [left | right]; apply unusable_read_rejected; exact H.
Qed.

Lemma getInputs_unavailable_witness :
  Calc.getInputs Samples.zeroPrevious = Ok None.
Proof.
  apply getInputs_unavailable.
  right. right. right. exists 0. split; [reflexivity | lra].
Defined.

Lemma field_object (k : string) (o : value) :
  Spec.field k o <> VUndefined -> truthy o = true.
Proof. destruct o; simpl; intros H; try (exfalso; apply H; reflexivity). reflexivity. Qed.

Lemma guarded_field (a : value) (k : string) :
  Spec.field k a <> VUndefined -> guarded a k = Spec.field k a.
Proof. intros H. unfold guarded. rewrite (field_object _ _ H). reflexivity. Qed.

(** A nested field that is present is what the guarded reads see. *)
Lemma guarded_nested (country : value) (j k : string) :
  Spec.field k (Spec.field j country) <> VUndefined ->
  guarded (guarded country j) k = Spec.field k (Spec.field j country).
Proof.
  intros H.
  assert (Hj : Spec.field j country <> VUndefined).
  { intros E. rewrite E in H. apply H. reflexivity. }
  rewrite (guarded_field country j Hj). apply guarded_field. exact H.
Qed.

(** C4. For a country record whose two CPI index values are finite positive
    numbers [l] and [p], [getInputs] returns rates whose inflation rate is
    [l / p - 1]; for [l = 102.1] and [p = 100] that is [0.021]. *)
Theorem getInputs_inflation (country : value) (l p : R) :
  Spec.latestIndexValue country = VNumber (Fin l) ->
  Spec.previousIndexValue country = VNumber (Fin p) ->
  0 < l -> 0 < p ->
  exists inputs : Calc.Inputs,
    Calc.getInputs country = Ok (Some inputs)
    /\ Calc.inflationRate inputs = Fin (l / p - 1).
Proof.
  unfold Spec.latestIndexValue, Spec.previousIndexValue.
  intros Hl Hp Hlpos Hppos. rewrite getInputs_reads.
  rewrite !guarded_nested by (rewrite ?Hl, ?Hp; discriminate).
  rewrite Hl, Hp. unfold ratesOf. rewrite !parseFiniteNumber_Fin.
  simpl le. rewrite !Rleb_false by lra. simpl orb. cbv iota.
  eexists. split; [reflexivity |].
  cbn [Calc.inflationRate]. rewrite div_Fin by lra. reflexivity.
Qed.

Lemma getInputs_inflation_witness :
  exists inputs : Calc.Inputs,
    Calc.getInputs (hd VNull Calc.FALLBACK_COUNTRIES) = Ok (Some inputs)
    /\ Calc.inflationRate inputs = Fin (1021 / 10 / 100 - 1)
    /\ 1021 / 10 / 100 - 1 = 21 / 1000.
Proof.
  destruct (getInputs_inflation (hd VNull Calc.FALLBACK_COUNTRIES) (1021 / 10) 100)
    as [inputs [H1 H2]]; try reflexivity; try lra.
  exists inputs. repeat split; [exact H1 | exact H2 | lra].
Defined.

(** The rates [getInputs] returns come from two positive CPI readings, and the
    country record they come from is truthy. *)
Lemma getInputs_success (country : value) (inputs : Calc.Inputs) :
  Calc.getInputs country = Ok (Some inputs) ->
  truthy country = true
  /\ exists l p : R,
      0 < l /\ 0 < p
      /\ inputs
         = {| Calc.inflationRate := Fin (l / p - 1);
              Calc.interestRate :=
                match Calc.parseFiniteNumber (guarded (Spec.field "rate" country) "value") with
                | Some rv => (rv / Fin 100)%num
                | None => Fin 0
                end;
              Calc.hasRate :=
                negb (Calc.isNull
                        (Calc.parseFiniteNumber (guarded (Spec.field "rate" country) "value"))) |}.
Proof.
  rewrite getInputs_reads. intros H. injection H as H.
  assert (T : truthy country = true).
  { destruct (truthy country) eqn:T; [reflexivity |].
    rewrite rejected_no_rates in H; [discriminate |].
    left. apply falsy_rejected.
    assert (E : forall k, guarded country k = country)
      by (intros k; unfold guarded; rewrite T; reflexivity).
    rewrite !E. exact T. }
  split; [exact T |].
  assert (Er : guarded country "rate" = Spec.field "rate" country)
    by (unfold guarded; rewrite T; reflexivity).
  rewrite Er in H. unfold ratesOf in H.
  destruct (Calc.parseFiniteNumber (guarded (guarded country "cpi") "latest")) as [nl |] eqn:El;
    [| discriminate].
  destruct (Calc.parseFiniteNumber (guarded (guarded country "cpi") "previous")) as [np |] eqn:Ep;
    [| discriminate].
  destruct (parseFiniteNumber_finite _ _ El) as [l ->].
  destruct (parseFiniteNumber_finite _ _ Ep) as [p ->].
  simpl le in H. unfold Rleb in H.
  destruct (Rle_dec l 0); [discriminate |].
  destruct (Rle_dec p 0); [discriminate |].
  cbn [orb] in H. injection H as <-.
  exists l, p. repeat split; try lra.
  rewrite (Reqb_false p 0) by lra. reflexivity.
Qed.

(** With two finite positive CPI readings [getInputs] returns rates. *)
Lemma getInputs_positive (country : value) (l p : R) :
  Spec.latestIndexValue country = VNumber (Fin l) ->
  Spec.previousIndexValue country = VNumber (Fin p) ->
  0 < l -> 0 < p ->
  exists inputs : Calc.Inputs, Calc.getInputs country = Ok (Some inputs).
Proof.
  unfold Spec.latestIndexValue, Spec.previousIndexValue.
  intros Hl Hp Hlpos Hppos. rewrite getInputs_reads.
  rewrite !guarded_nested by (rewrite ?Hl, ?Hp; discriminate).
  rewrite Hl, Hp. unfold ratesOf. rewrite !parseFiniteNumber_Fin.
  simpl le. rewrite !Rleb_false by lra. simpl orb. cbv iota.
  eexists. reflexivity.
Qed.


(** C5. For a country record from which [getInputs] returns rates: when the
    [value] of its [rate] entry is a finite number [x] (zero included), the
    rates have [hasRate = true] and [interestRate = x / 100]; when the rate is
    absent (no [rate] entry, or a [rate] object whose [value] is missing or
    non-finite), the rates have [hasRate = false] and [interestRate = 0]. *)
Theorem getInputs_interest (country : value) (inputs : Calc.Inputs) :
  Calc.getInputs country = Ok (Some inputs) ->
  (forall x : R,
      Spec.rateValue country = VNumber (Fin x) ->
      Calc.hasRate inputs = true /\ Calc.interestRate inputs = Fin (x / 100))
  /\ (Spec.rateAbsent country ->
      Calc.hasRate inputs = false /\ Calc.interestRate inputs = Fin 0).
Proof.
  intros H. destruct (getInputs_success _ _ H) as [T [l [p [Hl [Hp ->]]]]].
  cbn [Calc.hasRate Calc.interestRate]. split.
  - intros x Hx. unfold Spec.rateValue in Hx.
    rewrite guarded_field by (rewrite Hx; discriminate).
    rewrite Hx, parseFiniteNumber_Fin. split; [reflexivity |].
    apply div_Fin. lra.
  - intros [Hm | [[fs Hfs] Hv]].
    + assert (E : guarded (Spec.field "rate" country) "value" = Spec.field "rate" country).
      { unfold guarded. destruct Hm as [-> | ->]; reflexivity. }
      rewrite E, (missing_not_parsed _ Hm). split; reflexivity.
    + unfold Spec.rateValue in Hv.
      assert (E : guarded (Spec.field "rate" country) "value"
                  = Spec.field "value" (Spec.field "rate" country)).
      { unfold guarded. rewrite Hfs. reflexivity. }
      rewrite E.
      assert (N : Calc.parseFiniteNumber (Spec.field "value" (Spec.field "rate" country)) = None).
      { destruct Hv as [Hv | Hv];
          [apply missing_not_parsed | apply nonFinite_not_parsed]; exact Hv. }
      rewrite N. split; reflexivity.
Qed.

Lemma getInputs_interest_witness :
  (exists inputs : Calc.Inputs,
      Calc.getInputs (hd VNull Calc.FALLBACK_COUNTRIES) = Ok (Some inputs)
      /\ Calc.hasRate inputs = true
      /\ Calc.interestRate inputs = Fin (4 / 100))
  /\ (exists inputs : Calc.Inputs,
        Calc.getInputs Samples.noRate = Ok (Some inputs)
        /\ Calc.hasRate inputs = false
        /\ Calc.interestRate inputs = Fin 0).
Proof.
  split.
  - destruct (getInputs_positive (hd VNull Calc.FALLBACK_COUNTRIES) (1021 / 10) 100)
      as [inputs H]; try reflexivity; try lra.
    exists inputs. split; [exact H |].
    apply (proj1 (getInputs_interest _ inputs H) 4). reflexivity.
  - destruct (getInputs_positive Samples.noRate 110 100)
      as [inputs H]; try reflexivity; try lra.
    exists inputs. split; [exact H |].
    apply (proj2 (getInputs_interest _ inputs H)). left. left. reflexivity.
Defined.

(** ** The one-year value *)





(** The rates of a record with positive CPI readings and a finite rate. *)
Lemma getInputs_record (country : value) (l p x : R) :
  Spec.latestIndexValue country = VNumber (Fin l) ->
  Spec.previousIndexValue country = VNumber (Fin p) ->
  Spec.rateValue country = VNumber (Fin x) ->
  0 < l -> 0 < p ->
  Calc.getInputs country
  = Ok (Some {| Calc.inflationRate := Fin (l / p - 1);
                Calc.interestRate := Fin (x / 100);
                Calc.hasRate := true |}).
Proof.
  intros Hl Hp Hx Hlpos Hppos.
  destruct (getInputs_positive country l p Hl Hp Hlpos Hppos) as [inputs H].
  rewrite H. do 2 f_equal.
  pose proof H as H'. rewrite getInputs_reads in H'. injection H' as H'.
  unfold Spec.latestIndexValue, Spec.previousIndexValue, Spec.rateValue in *.
  rewrite !guarded_nested in H' by (rewrite ?Hl, ?Hp, ?Hx; discriminate).
  rewrite Hl, Hp, Hx in H'. unfold ratesOf in H'.
  rewrite !parseFiniteNumber_Fin in H'. cbn [le] in H'.
  rewrite !Rleb_false in H' by lra. cbn [orb] in H'.
  injection H' as <-. cbn [Calc.isNull negb].
  rewrite (Reqb_false p 0), (Reqb_false 100 0) by lra. reflexivity.
Qed.

(** The rates of the built-in fallback record. *)
Lemma fallback_inputs :
  Calc.getInputs (hd VNull Calc.FALLBACK_COUNTRIES)
  = Ok (Some {| Calc.inflationRate := Fin (21 / 1000);
                Calc.interestRate := Fin (4 / 100);
                Calc.hasRate := true |}).
Proof.
  rewrite (getInputs_record (hd VNull Calc.FALLBACK_COUNTRIES) (1021 / 10) 100 4);
    try reflexivity; try lra.
  do 3 f_equal; f_equal; lra.
Qed.


(** ** The readings behind the derived rates *)

(** The rates [getInputs] returns come from the two CPI readings of the
    record, both read as finite positive numbers. *)
Lemma getInputs_readings (country : value) (inputs : Calc.Inputs) :
  Calc.getInputs country = Ok (Some inputs) ->
  exists l p : R,
    Calc.parseFiniteNumber (Spec.latestIndexValue country) = Some (Fin l)
    /\ Calc.parseFiniteNumber (Spec.previousIndexValue country) = Some (Fin p)
    /\ 0 < l /\ 0 < p
    /\ Calc.inflationRate inputs = (Fin l / Fin p - Fin 1)%num
    /\ ((Calc.hasRate inputs = false /\ Calc.interestRate inputs = Fin 0)
        \/ exists x : R,
            Calc.hasRate inputs = true
            /\ Calc.interestRate inputs = (Fin x / Fin 100)%num).
Proof.
  intros H. pose proof H as G.
  rewrite getInputs_reads in G. injection G as G.
  assert (El : guarded (guarded country "cpi") "latest" = Spec.latestIndexValue country).
  { destruct (cpi_read country "latest") as [E | R]; [exact E |].
    rewrite rejected_no_rates in G; [discriminate | left; exact R]. }
  assert (Ep : guarded (guarded country "cpi") "previous" = Spec.previousIndexValue country).
  { destruct (cpi_read country "previous") as [E | R]; [exact E |].
    rewrite rejected_no_rates in G; [discriminate | right; exact R]. }
  rewrite El, Ep in G. unfold ratesOf in G.
  destruct (Calc.parseFiniteNumber (Spec.latestIndexValue country)) as [nl |] eqn:Pl;
    [| discriminate].
  destruct (Calc.parseFiniteNumber (Spec.previousIndexValue country)) as [np |] eqn:Pp;
    [| discriminate].
  destruct (parseFiniteNumber_finite _ _ Pl) as [l ->].
  destruct (parseFiniteNumber_finite _ _ Pp) as [p ->].
  simpl le in G. unfold Rleb in G.
  destruct (Rle_dec l 0); [discriminate |].
  destruct (Rle_dec p 0); [discriminate |].
  cbn [orb] in G. injection G as <-.
  exists l, p. cbn [Calc.inflationRate Calc.interestRate Calc.hasRate].
  repeat split; try lra.
  destruct (Calc.parseFiniteNumber (guarded (guarded country "rate") "value"))
    as [rv |] eqn:Pr.
  - right. destruct (parseFiniteNumber_finite _ _ Pr) as [x ->].
    exists x. split; reflexivity.
  - left. split; reflexivity.
Qed.

(** In double precision the CPI readings 1 and [10 ^ 17] give the inflation
    rate [-1] exactly, so the growth base [1 + inflationRate] is zero; the
    loss of the amount 1 is then [NaN], for every [Math.pow] that maps a zero
    base to zero and the base one to one at the horizon. *)
Lemma inflation_rounds_to_minus_one :
  Double.inflationRate (Double.ofZ 1) (Double.ofZ (10 ^ 17)) = Double.ofZ (-1)
  /\ Double.add (Double.ofZ 1) (Double.ofZ (-1)) = Double.zero false
  /\ forall (pow : Double.number -> Double.number -> Double.number) (n : Double.number),
      pow (Double.zero false) n = Double.zero false ->
      pow (Double.ofZ 1) n = Double.ofZ 1 ->
      Double.computeLoss pow (Double.ofZ 1)
        (Double.inflationRate (Double.ofZ 1) (Double.ofZ (10 ^ 17))) (Double.zero false) n
      = Double.nan.
Proof.
  split; [vm_compute; reflexivity |]. split; [vm_compute; reflexivity |].
  intros pow n H0 H1. unfold Double.computeLoss.
  change (Double.add (Double.ofZ 1)
            (Double.inflationRate (Double.ofZ 1) (Double.ofZ (10 ^ 17))))
    with (Double.zero false).
  change (Double.add (Double.ofZ 1) (Double.zero false)) with (Double.ofZ 1).
  rewrite H0, H1. vm_compute. reflexivity.
Qed.

(** C10, as far as it holds.  Whenever [getInputs] returns rates, both CPI
    readings were read as finite numbers above zero, so the division in
    [getInputs] is never a division by zero, the inflation rate is
    [cpiLatest / cpiPrevious - 1] of these readings, and the interest rate is
    zero or a finite rate value over 100.  In double precision, for every two
    positive finite readings, the computed inflation rate is never [NaN] and
    never below [-1], and the growth base [1 + inflationRate] is never [NaN]
    or negative.  It is not always above zero: the readings 1 and [10 ^ 17]
    give exactly [-1], the growth base is zero, and [computeLoss] divides by
    zero and returns [NaN]. *)
Theorem getInputs_positive_readings (country : value) (inputs : Calc.Inputs) :
  Calc.getInputs country = Ok (Some inputs) ->
  (exists l p : R,
      Calc.parseFiniteNumber (Spec.latestIndexValue country) = Some (Fin l)
      /\ Calc.parseFiniteNumber (Spec.previousIndexValue country) = Some (Fin p)
      /\ 0 < l /\ 0 < p
      /\ Calc.inflationRate inputs = (Fin l / Fin p - Fin 1)%num
      /\ ((Calc.hasRate inputs = false /\ Calc.interestRate inputs = Fin 0)
          \/ exists x : R,
              Calc.hasRate inputs = true
              /\ Calc.interestRate inputs = (Fin x / Fin 100)%num))
  /\ (forall (ml mp : positive) (el ep : Z),
        let i := Double.inflationRate (Double.finite false ml el)
                   (Double.finite false mp ep) in
        Double.notBelowMinusOne i = true
        /\ Double.notNegative (Double.add (Double.ofZ 1) i) = true)
  /\ Double.inflationRate (Double.ofZ 1) (Double.ofZ (10 ^ 17)) = Double.ofZ (-1)
  /\ Double.add (Double.ofZ 1) (Double.ofZ (-1)) = Double.zero false
  /\ (forall (pow : Double.number -> Double.number -> Double.number) (n : Double.number),
        pow (Double.zero false) n = Double.zero false ->
        pow (Double.ofZ 1) n = Double.ofZ 1 ->
        Double.computeLoss pow (Double.ofZ 1)
          (Double.inflationRate (Double.ofZ 1) (Double.ofZ (10 ^ 17))) (Double.zero false) n
        = Double.nan).
Proof.
  intros H. split; [exact (getInputs_readings country inputs H) |].
  split; [exact DoubleFacts.inflation_base |].
  exact inflation_rounds_to_minus_one.
Qed.

Lemma getInputs_positive_readings_witness :
  exists inputs : Calc.Inputs,
    Calc.getInputs (hd VNull Calc.FALLBACK_COUNTRIES) = Ok (Some inputs)
    /\ exists l p : R,
        Calc.parseFiniteNumber (Spec.latestIndexValue (hd VNull Calc.FALLBACK_COUNTRIES))
        = Some (Fin l)
        /\ Calc.parseFiniteNumber (Spec.previousIndexValue (hd VNull Calc.FALLBACK_COUNTRIES))
           = Some (Fin p)
        /\ 0 < l /\ 0 < p
        /\ Calc.inflationRate inputs = (Fin l / Fin p - Fin 1)%num
        /\ ((Calc.hasRate inputs = false /\ Calc.interestRate inputs = Fin 0)
            \/ exists x : R,
                Calc.hasRate inputs = true
                /\ Calc.interestRate inputs = (Fin x / Fin 100)%num).
Proof.
  destruct (getInputs_positive (hd VNull Calc.FALLBACK_COUNTRIES) (1021 / 10) 100)
    as [inputs H]; try reflexivity; try lra.
  exists inputs. split; [exact H |].
  exact (proj1 (getInputs_positive_readings _ inputs H)).
Defined.

(** C10 does not hold for every finite interest rate and horizon: a record
    with CPI 100 over 100 and a rate value of [-300] yields the rates [i = 0],
    [r = -3]; at a horizon of half a year the loss formula returns [NaN], not
    a finite real. *)
Lemma getInputs_loss_not_finite :
  Calc.getInputs Samples.negativeRate
  = Ok (Some {| Calc.inflationRate := Fin 0;
                Calc.interestRate := Fin (-3);
                Calc.hasRate := true |})
  /\ 0 < 1 / 2
  /\ Calc.computeLoss (Fin 1) (Fin 0) (Fin (-3)) (Fin (1 / 2)) = NaN.
Proof.
  repeat split.
  - rewrite (getInputs_record Samples.negativeRate 100 100 (-300)); try reflexivity; try lra.
    do 3 f_equal; f_equal; lra.
  - lra.
  - apply computeLoss_undefined; [lra |].
    rewrite add_Fin. rewrite pow_neg_base by lra.
    rewrite half_not_integral. reflexivity.
Qed.

(** ** What reaches the result cells *)

Lemma find_by_id_records (id : string) (cs : list value) :
  Spec.records cs ->
  exists v : value,
    find_by_id id cs = Ok v /\ (v = VUndefined \/ exists fields, v = VObject fields).
Proof.
  induction cs as [| c rest IH]; intros Hcs.
  - exists VUndefined. split; [reflexivity | left; reflexivity].
  - destruct (Hcs c (or_introl eq_refl)) as [fs ->].
    cbn [find_by_id get bind].
    destruct (strictEqString (lookup "id" fs) id).
    + exists (VObject fs). split; [reflexivity | right; eexists; reflexivity].
    + apply IH. intros c' Hin. apply Hcs. right. exact Hin.
Qed.

(** [getCountry] on a list of records returns one of them or [null]. *)
Lemma getCountry_records (dom : Dom) :
  Spec.records (countries dom) ->
  exists country : value,
    getCountry dom = Ok country
    /\ (country = VNull \/ exists fields, country = VObject fields).
Proof.
  intros Hcs. unfold getCountry.
  destruct (find_by_id_records (countrySelect_value dom) _ Hcs) as [v [-> [-> | [fs ->]]]].
  - exists VNull. split; [reflexivity | left; reflexivity].
  - exists (VObject fs). split; [reflexivity | right; eexists; reflexivity].
Qed.

(** What [runCalculation] shows for an accepted amount and a record with
    rates: the additive value for one year, [computeLoss] for five and ten. *)
Lemma runCalculation_values
    (dom : Dom) (fields : list (string * value)) (inputs : Calc.Inputs) :
  let amount := parseFloatString (amountInput_value dom) in
  isNaN amount = false ->
  ge amount (Fin 0) = true ->
  getCountry dom = Ok (VObject fields) ->
  Calc.getInputs (VObject fields) = Ok (Some inputs) ->
  Calc.runCalculation dom
  = Ok {| emptyState := false;
          interestExplanation := Some (Calc.hasRate inputs);
          loss1y :=
            Money (amount * Calc.inflationRate inputs + amount * Calc.interestRate inputs)%num
                  (or_else (lookup "currencySymbol" fields) (VString ""));
          loss5y :=
            Money (Calc.computeLoss amount (Calc.inflationRate inputs)
                     (Calc.interestRate inputs) (Fin 5))
                  (or_else (lookup "currencySymbol" fields) (VString ""));
          loss10y :=
            Money (Calc.computeLoss amount (Calc.inflationRate inputs)
                     (Calc.interestRate inputs) (Fin 10))
                  (or_else (lookup "currencySymbol" fields) (VString "")) |}.
Proof.
  intros amount Hnan Hge Hc Hin. unfold Calc.runCalculation. fold amount.
  rewrite Hc, Hnan, Hge. cbn [bind negb andb truthy].
  rewrite Hin. reflexivity.
Qed.

(** The scenario of the fallback record: the amount 10000 shows 610 for one
    year. *)
Example runCalculation_fallback_one_year :
  exists s : Screen,
    Calc.runCalculation Samples.fallbackPage = Ok s
    /\ loss1y s = Money (Fin 610) (VString "$")
    /\ interestExplanation s = Some true.
Proof.
  assert (A : parseFloatString (amountInput_value Samples.fallbackPage) = Fin 10000)
    by apply parseFloat_amount.
  eexists. split.
  - apply (runCalculation_values Samples.fallbackPage);
      [ rewrite A; reflexivity
      | rewrite A; apply Rleb_true; lra
      | reflexivity
      | apply fallback_inputs ].
  - cbn [loss1y interestExplanation Calc.inflationRate Calc.interestRate Calc.hasRate].
    split; [| reflexivity].
    rewrite A, !mul_Fin, add_Fin.
    replace (10000 * (21 / 1000) + 10000 * (4 / 100)) with 610 by lra.
    reflexivity.
Qed.

(** C8, for the guard that exists.  In the current calculator the only
    check is the one in [getInputs]: when the latest or the previous CPI
    reading of the selected country is missing, non-finite or not positive
    (the readings for which the ratio would give [1 + inflationRate <= 0] or
    no number at all), [runCalculation] returns without throwing and shows a
    dash in each of the three result cells, whatever the amount text is; no
    value is handed to the display.  The values computed from accepted
    readings are not checked. *)
Theorem runCalculation_unavailable (dom : Dom) (country : value) :
  getCountry dom = Ok country ->
  Spec.scalar (Spec.latestIndexValue country) ->
  Spec.scalar (Spec.previousIndexValue country) ->
  Spec.unusableIndex (Spec.latestIndexValue country)
  \/ Spec.unusableIndex (Spec.previousIndexValue country) ->
  exists s : Screen,
    Calc.runCalculation dom = Ok s
    /\ loss1y s = Dash /\ loss5y s = Dash /\ loss10y s = Dash.
Proof.
  intros Hc _ _ Hbad. unfold Calc.runCalculation. rewrite Hc. cbn [bind].
  destruct (negb (negb (isNaN (parseFloatString (amountInput_value dom)))
                  && ge (parseFloatString (amountInput_value dom)) (Fin 0)));
    [dash_case |].
  destruct (truthy country) eqn:T; cbn [negb]; [| dash_case].
  assert (G : Calc.getInputs country = Ok None).
  { rewrite getInputs_reads. f_equal. apply rejected_no_rates.
    destruct Hbad as [H | H]; [left | right]; apply unusable_read_rejected; exact H. }
  rewrite G, (get_truthy _ _ T). cbn [bind]. dash_case.
Qed.

Lemma runCalculation_unavailable_witness :
  exists s : Screen,
    Calc.runCalculation
      {| amountInput_value := "10000"; countrySelect_value := "US";
         countries := [ Samples.zeroPrevious ] |} = Ok s
    /\ loss1y s = Dash /\ loss5y s = Dash /\ loss10y s = Dash.
Proof.
  apply (runCalculation_unavailable
           {| amountInput_value := "10000"; countrySelect_value := "US";
              countries := [ Samples.zeroPrevious ] |} Samples.zeroPrevious).
  - reflexivity.
  - exact I.
  - exact I.
  - right. right. right. exists 0. split; [reflexivity | lra].
Defined.

(** With a growth factor of zero the earlier formula divides by zero. *)
Lemma computeLossV0_zero_factor (a i r n : R) :
  1 + i = 0 -> 0 < a -> 0 < r -> 0 < n ->
  CalcV0.computeLoss (Fin a) (Fin i) (Fin r) (Fin n) = PInf.
Proof.
  intros Hi Ha Hr Hn. unfold CalcV0.computeLoss. cbv zeta.
  rewrite !add_Fin, Hi, pow_zero_base by exact Hn.
  rewrite pow_pos_base by lra.
  assert (Hg : 1 < Rpower (1 + r) n).
  { pose proof (Rpower_lt (1 + r) 0 n ltac:(lra) Hn) as H.
    rewrite Rpower_O in H by lra. exact H. }
  rewrite sub_Fin. unfold div. rewrite Reqb_true by reflexivity.
  rewrite Reqb_false by lra. rewrite Rltb_false by lra.
  unfold mul, inf_of_sign, is_neg. rewrite Reqb_false by lra.
  rewrite Rltb_false by lra. reflexivity.
Qed.

(** C8 does not hold for the earlier calculator, which checks nothing: a
    record with an annual inflation of [-100] percent gives
    [1 + inflationRate = 0], and for the amount 1000 all three cells receive
    [+Infinity].  Nor does the current calculator look at the values it
    computed: for the amount text [Infinity] the one-year cell of the
    fallback record receives [+Infinity]. *)
Lemma nonfinite_values_reach_display :
  1 + -100 / 100 <= 0
  /\ CalcV0.runCalculation Samples.totalDeflationPage
     = Ok {| emptyState := false;
             interestExplanation := None;
             loss1y := Money PInf (VString "$");
             loss5y := Money PInf (VString "$");
             loss10y := Money PInf (VString "$") |}
  /\ ~ Spec.finiteCell (Money PInf (VString "$"))
  /\ exists s : Screen,
      Calc.runCalculation Samples.infiniteAmountPage = Ok s
      /\ loss1y s = Money PInf (VString "$").
Proof.
  split; [lra |]. split; [| split; [simpl; tauto |]].
  - unfold CalcV0.runCalculation.
    assert (A : parseFloatString (amountInput_value Samples.totalDeflationPage) = Fin 1000).
    { eval_text. f_equal. simpl. lra. }
    rewrite A.
    assert (C : getCountry Samples.totalDeflationPage
                = Ok (hd VNull (countries Samples.totalDeflationPage))) by reflexivity.
    rewrite C. cbn [bind isNaN negb andb ge le].
    rewrite Rleb_true by lra.
    cbn [negb Samples.totalDeflationPage countries hd truthy get bind].
    cbn [lookup String.eqb Ascii.eqb Bool.eqb toNumber or_else truthy negb animateResultNumbers
         year1 year5 year10].
    rewrite !div_Fin by lra.
    rewrite !computeLossV0_zero_factor by lra.
    reflexivity.
  - eexists. split.
    + apply (runCalculation_values Samples.infiniteAmountPage);
        [reflexivity | reflexivity | reflexivity | apply fallback_inputs].
    + cbn [loss1y Calc.inflationRate Calc.interestRate].
      assert (A : parseFloatString (amountInput_value Samples.infiniteAmountPage) = PInf)
        by reflexivity.
      rewrite A. unfold mul, is_neg, inf_of_sign.
      rewrite !Reqb_false by lra. rewrite !Rltb_false by lra. reflexivity.
Qed.

(** ** The explanation popup *)

Lemma field_inv (k : string) (o : value) :
  Spec.field k o <> VUndefined -> exists fields, o = VObject fields.
Proof.
  destruct o; simpl; intros H; try (exfalso; apply H; reflexivity).
  eexists. reflexivity.
Qed.

(** Rates come only from a record that holds a [cpi] object. *)
Lemma getInputs_shape (country : value) (inputs : Calc.Inputs) :
  Calc.getInputs country = Ok (Some inputs) ->
  exists fields cpiFields,
    country = VObject fields /\ lookup "cpi" fields = VObject cpiFields.
Proof.
  intros H. rewrite getInputs_reads in H. injection H as H.
  destruct (cpi_read country "latest") as [E | R].
  - rewrite E in H.
    assert (Hl : Spec.field "latest" (Spec.field "cpi" country) <> VUndefined).
    { intros U. rewrite U in H. discriminate. }
    destruct (field_inv _ _ Hl) as [cs Hcs].
    assert (Hc : Spec.field "cpi" country <> VUndefined) by (rewrite Hcs; discriminate).
    destruct (field_inv _ _ Hc) as [fs ->].
    exists fs, cs. split; [reflexivity | exact Hcs].
  - rewrite rejected_no_rates in H; [discriminate | left; exact R].
Qed.

Lemma and_then_get_same (a : value) (k : string) :
  and_then a (fun _ => get a k) = Ok (guarded a k).
Proof. apply (and_then_get a k). Qed.

(** Text taken from the record is never a fragment written in the program. *)
Lemma escaped_value_not_lit (v : value) (s : string) : escapeFrag (stringOf v) <> Lit s.
Proof. destruct v as [| | b | n | t | fs]; simpl; discriminate. Qed.

Lemma escaped_parsed_not_lit (x : option number) (s : string) :
  escapeFrag (stringOfParsed x) <> Lit s.
Proof. destruct x; simpl; discriminate. Qed.

(** The popup of a record whose rate is unavailable: the interest section
    holds the note, and no other fragment is the interest formula or a part
    of its substitution. *)
Lemma popup_without_rate (country : value) (inputs : Calc.Inputs) :
  Calc.getInputs country = Ok (Some inputs) ->
  Calc.hasRate inputs = false ->
  exists pre post : text,
    Calc.buildHowCalculatedPopup country (Some inputs)
    = Ok (pre
          ++ [ Calc.sectionOpen;
               Lit "<h4>Interest input from IMF short-term rate</h4>";
               Lit "<p>"; Lit Calc.rateUnavailableNote; Lit "</p>";
               Lit "</div>" ]
          ++ post)
    /\ (forall f, In f (pre ++ post) ->
        f <> Lit "interestRate = rateValue / 100"
        /\ f <> Lit "interestRate = "
        /\ f <> Lit " / 100 = ").
Proof.
  intros H Hrate.
  destruct (getInputs_shape _ _ H) as [fs [cs [-> Hcs]]].
  destruct (getInputs_success _ _ H) as [_ [l [p [_ [_ E]]]]].
  cbn [Spec.field] in E.
  assert (N : Calc.parseFiniteNumber (guarded (lookup "rate" fs) "value") = None).
  { rewrite E in Hrate. cbn [Calc.hasRate] in Hrate.
    destruct (Calc.parseFiniteNumber (guarded (lookup "rate" fs) "value"));
      [discriminate | reflexivity]. }
  unfold Calc.buildHowCalculatedPopup.
  cbn [truthy negb get bind]. rewrite Hcs. cbn [truthy negb get bind].
  rewrite and_then_get_same. cbn [bind].
  rewrite N. cbn [Calc.isNull negb bind].
  eexists (_ :: _ :: _ :: _ :: _ :: _ :: _ :: _ :: _ :: _ :: _ :: _ :: _ :: _ :: _ :: _ :: _
             :: _ :: _ :: _ :: _ :: _ :: _ :: _ :: _ :: _ :: _ :: _ :: _ :: []).
  eexists. split.
  - cbn [app escapeHtml map]. reflexivity.
  - intros f Hin. cbn [app In] in Hin.
    repeat match type of Hin with
           | _ \/ _ => destruct Hin as [<- | Hin]
           | False => contradiction
           end;
      try (repeat split;
           first [ apply escaped_value_not_lit
                 | apply escaped_parsed_not_lit
                 | vm_compute; discriminate
                 | discriminate ]).
Qed.

(** The popup without a country, without a [cpi] entry, or without rates. *)
Lemma popup_placeholder (country : value) (inputs : option Calc.Inputs) :
  truthy country = false \/ truthy (Spec.field "cpi" country) = false \/ inputs = None ->
  Calc.buildHowCalculatedPopup country inputs = Ok Calc.placeholder.
Proof.
  intros H. unfold Calc.buildHowCalculatedPopup.
  destruct (truthy country) eqn:T; [| reflexivity]. cbn [negb].
  rewrite (get_truthy _ _ T). cbn [bind].
  destruct (truthy (Spec.field "cpi" country)) eqn:Tc; [| reflexivity]. cbn [negb].
  destruct H as [H | [H | ->]]; [discriminate | discriminate | reflexivity].
Qed.

(** C9. [buildHowCalculatedPopup] returns the generic placeholder, without
    throwing, when no country is given, when the country has no [cpi] entry,
    or when the rates are unavailable; [openPopup] shows that placeholder when
    no country is selected.  For a record whose derived rates have
    [hasRate = false], the interest section of the popup is the plain note
    that the rate is unavailable (inflation-only mode, [interestRate = 0]),
    and neither the interest formula nor its substitution appears. *)
Theorem buildHowCalculatedPopup_degraded
    (country : value) (inputs : option Calc.Inputs) (dom : Dom) :
  (truthy country = false \/ truthy (Spec.field "cpi" country) = false \/ inputs = None ->
   Calc.buildHowCalculatedPopup country inputs = Ok Calc.placeholder)
  /\ (getCountry dom = Ok VNull -> Calc.openPopup dom = Ok Calc.placeholder)
  /\ (forall rates : Calc.Inputs,
        Calc.getInputs country = Ok (Some rates) ->
        Calc.hasRate rates = false ->
        exists pre post : text,
          Calc.buildHowCalculatedPopup country (Some rates)
          = Ok (pre
                ++ [ Calc.sectionOpen;
                     Lit "<h4>Interest input from IMF short-term rate</h4>";
                     Lit "<p>"; Lit Calc.rateUnavailableNote; Lit "</p>";
                     Lit "</div>" ]
                ++ post)
          /\ (forall f, In f (pre ++ post) ->
              f <> Lit "interestRate = rateValue / 100"
              /\ f <> Lit "interestRate = "
              /\ f <> Lit " / 100 = ")).
Proof.
  split; [apply popup_placeholder |]. split.
  - intros H. unfold Calc.openPopup. rewrite H. reflexivity.
  - intros rates H Hrate. apply popup_without_rate; assumption.
Qed.

Lemma buildHowCalculatedPopup_degraded_witness :
  Calc.buildHowCalculatedPopup VNull None = Ok Calc.placeholder
  /\ Calc.openPopup
       {| amountInput_value := "100"; countrySelect_value := ""; countries := [] |}
     = Ok Calc.placeholder
  /\ exists rates : Calc.Inputs,
      Calc.getInputs Samples.noRate = Ok (Some rates)
      /\ Calc.hasRate rates = false
      /\ exists pre post : text,
          Calc.buildHowCalculatedPopup Samples.noRate (Some rates)
          = Ok (pre
                ++ [ Calc.sectionOpen;
                     Lit "<h4>Interest input from IMF short-term rate</h4>";
                     Lit "<p>"; Lit Calc.rateUnavailableNote; Lit "</p>";
                     Lit "</div>" ]
                ++ post)
          /\ (forall f, In f (pre ++ post) ->
              f <> Lit "interestRate = rateValue / 100"
              /\ f <> Lit "interestRate = "
              /\ f <> Lit " / 100 = ").
Proof.
  destruct (getInputs_positive Samples.noRate 110 100) as [rates H];
    try reflexivity; try lra.
  assert (Hrate : Calc.hasRate rates = false).
  { destruct (getInputs_success _ _ H) as [_ [l [p [_ [_ ->]]]]]. reflexivity. }
  destruct (buildHowCalculatedPopup_degraded Samples.noRate None
              {| amountInput_value := "100"; countrySelect_value := ""; countries := [] |})
    as [_ [K2 K3]].
  destruct (buildHowCalculatedPopup_degraded VNull None
              {| amountInput_value := "100"; countrySelect_value := ""; countries := [] |})
    as [K1 _].
  split; [apply K1; left; reflexivity |].
  split; [apply K2; reflexivity |].
  exists rates. split; [exact H |]. split; [exact Hrate |].
  apply K3; assumption.
Defined.

(** * Further properties of the code *)

(** ** [escapeHtml] *)

Lemma string_app_assoc (a b c : string) : ((a ++ b) ++ c = a ++ (b ++ c))%string.
Proof. induction a as [| x a IH]; simpl; [reflexivity | rewrite IH; reflexivity]. Qed.

Lemma string_app_length (a b : string) :
  String.length (a ++ b) = (String.length a + String.length b)%nat.
Proof. induction a as [| x a IH]; simpl; [reflexivity | rewrite IH; reflexivity]. Qed.

Lemma replaceChar_app (c : ascii) (by_ s t : string) :
  (replaceChar c by_ (s ++ t) = replaceChar c by_ s ++ replaceChar c by_ t)%string.
Proof.
  induction s as [| d s IH]; simpl; [reflexivity |].
  destruct (Ascii.eqb c d); rewrite IH; [rewrite string_app_assoc |]; reflexivity.
Qed.

Lemma escape_append (a b : string) :
  (escapeString (a ++ b) = escapeString a ++ escapeString b)%string.
Proof. unfold escapeString. rewrite !replaceChar_app. reflexivity. Qed.

(** X1. [escapeHtml(a + b) = escapeHtml(a) + escapeHtml(b)]: escaping a text
    piece by piece gives the same result as escaping the whole, on strings
    and on sequences of fragments alike. *)
Theorem escapeString_app (a b : string) (t u : text) :
  (escapeString (a ++ b) = escapeString a ++ escapeString b)%string
  /\ escapeHtml (t ++ u) = escapeHtml t ++ escapeHtml u.
Proof.
  split.
  - unfold escapeString. rewrite !replaceChar_app. reflexivity.
  - unfold escapeHtml. apply map_app.
Qed.

Lemma escapeString_char (c : ascii) : escapeString (String c EmptyString) = escapeChar c.
Proof. destruct c as [[] [] [] [] [] [] [] []]; reflexivity. Qed.

Lemma escape_each (s : string) : escapeString s = escapeEach s.
Proof.
  induction s as [| c s IH]; [reflexivity |].
  change (String c s) with (String c EmptyString ++ s)%string.
  rewrite escape_append, escapeString_char, IH. reflexivity.
Qed.

(** X2. The five replacements of [escapeHtml], applied one after the other to the
    whole text, amount to one pass that maps every character on its own: the
    ampersand of an entity written for [<], [>] or a quote is never escaped
    again. *)
Theorem escapeString_one_pass (s : string) : escapeString s = escapeEach s.
Proof.
  induction s as [| c s IH]; [reflexivity |].
  change (String c s) with (String c EmptyString ++ s)%string.
  unfold escapeString in *. rewrite !replaceChar_app.
  fold (escapeString (String c EmptyString)). rewrite escapeString_char, IH.
  reflexivity.
Qed.

Lemma anyChar_app (p : ascii -> bool) (a b : string) :
  anyChar p (a ++ b) = anyChar p a || anyChar p b.
Proof.
  induction a as [| x a IH]; simpl; [reflexivity |].
  rewrite IH, orb_assoc. reflexivity.
Qed.

Lemma escapeChar_no_markup (c : ascii) : anyChar markup (escapeChar c) = false.
Proof. destruct c as [[] [] [] [] [] [] [] []]; reflexivity. Qed.

Lemma escapeEach_no_markup (s : string) : anyChar markup (escapeEach s) = false.
Proof.
  induction s as [| c s IH]; [reflexivity |].
  simpl. rewrite anyChar_app, escapeChar_no_markup, IH. reflexivity.
Qed.

Lemma escaped_markup_free (s : string) : anyChar markup (escapeString s) = false.
Proof. rewrite escape_each. apply escapeEach_no_markup. Qed.

(** X3. The text [escapeHtml] returns holds none of [<], [>], the double quote
    and the apostrophe, whatever the input. *)
Theorem escapeString_no_markup (s : string) : anyChar markup (escapeString s) = false.
Proof.
  rewrite escape_each.
  induction s as [| c s IH]; [reflexivity |].
  cbn [escapeEach]. rewrite anyChar_app, escapeChar_no_markup. exact IH.
Qed.

Lemma escapeChar_length (c : ascii) :
  (if special c then 1 < String.length (escapeChar c)
   else escapeChar c = String c EmptyString)%nat.
Proof. destruct c as [[] [] [] [] [] [] [] []]; simpl; try reflexivity; lia. Qed.

Lemma escapeEach_length (s : string) :
  (String.length s <= String.length (escapeEach s))%nat
  /\ (anyChar special s = true -> String.length s < String.length (escapeEach s))%nat.
Proof.
  induction s as [| c s [IH1 IH2]]; simpl.
  - split; [lia | discriminate].
  - rewrite string_app_length.
    pose proof (escapeChar_length c) as Hc.
    destruct (special c); simpl.
    + split; [lia | intros _; lia].
    + rewrite Hc. simpl. split; [lia |]. intros H. specialize (IH2 H). lia.
Qed.

(** X4. [escapeHtml] returns its input unchanged exactly when the input holds
    none of the five characters [&], [<], [>], double quote, apostrophe. *)
Theorem escapeString_fixed (s : string) :
  escapeString s = s <-> anyChar special s = false.
Proof.
  rewrite escape_each. split.
  - intros E. destruct (anyChar special s) eqn:A; [| reflexivity].
    destruct (escapeEach_length s) as [_ H]. specialize (H A).
    rewrite E in H. lia.
  - induction s as [| c s IH]; simpl; [reflexivity |].
    intros H. apply orb_false_elim in H. destruct H as [Hc Hs].
    pose proof (escapeChar_length c) as L. rewrite Hc in L.
    rewrite L, (IH Hs). reflexivity.
Qed.

Lemma unescape_escapeChar (c : ascii) (rest : string) :
  unescape (escapeChar c ++ rest) = String c (unescape rest).
Proof. destruct c as [[] [] [] [] [] [] [] []]; reflexivity. Qed.

(** X5. [escapeHtml] loses nothing: reading the five entities back returns the
    input, so two different texts are never escaped to the same text. *)
Theorem escapeString_unescape (s t : string) :
  unescape (escapeString s) = s
  /\ (escapeString s = escapeString t -> s = t).
Proof.
  assert (R : forall u, unescape (escapeString u) = u).
  { intros u. rewrite escape_each.
    induction u as [| c u IH]; [reflexivity |].
    simpl. rewrite unescape_escapeChar, IH. reflexivity. }
  split; [apply R |].
  intros E. rewrite <- (R s), <- (R t), E. reflexivity.
Qed.

(** ** The popup, for every country and every rates *)

Lemma safe_escaped_value (v : value) : safeFrag (escapeFrag (stringOf v)).
Proof.
  destruct v as [| | b | n | s | fs]; cbn [stringOf escapeFrag safeFrag];
    try exact I; apply escaped_markup_free.
Qed.

Lemma safe_escaped_parsed (x : option number) : safeFrag (escapeFrag (stringOfParsed x)).
Proof.
  destruct x; cbn [stringOfParsed escapeFrag safeFrag];
    [exact I | apply escaped_markup_free].
Qed.

Ltac safe_text :=
  repeat (apply Forall_cons;
          [ first [ apply safe_escaped_value | apply safe_escaped_parsed | exact I ] | ]);
  apply Forall_nil.

(** A rate entry whose value parses is not [undefined] or [null]. *)
Lemma parsed_rate_present (rate : value) (n : number) :
  Calc.parseFiniteNumber (guarded rate "value") = Some n ->
  exists v : value, get rate "date" = Ok v.
Proof.
  destruct rate as [| | b | m | s | fs]; simpl; intros H;
    try discriminate; eexists; reflexivity.
Qed.

(** The two outcomes of [buildHowCalculatedPopup]: the placeholder, or the
    full text, which opens with the empty text the sum starts from. *)
Lemma popup_outcome (country : value) (inputs : option Calc.Inputs) :
  (Calc.buildHowCalculatedPopup country inputs = Ok Calc.placeholder
   /\ (truthy country = false \/ truthy (Spec.field "cpi" country) = false
       \/ inputs = None))
  \/ (exists rest : text,
        Calc.buildHowCalculatedPopup country inputs = Ok (Lit "" :: rest)
        /\ Forall safeFrag rest
        /\ truthy country = true /\ truthy (Spec.field "cpi" country) = true
        /\ inputs <> None).
Proof.
  destruct (truthy country) eqn:T;
    [| left; split; [apply popup_placeholder | ]; auto].
  destruct (truthy (Spec.field "cpi" country)) eqn:Tc;
    [| left; split; [apply popup_placeholder | ]; auto].
  destruct inputs as [inputs |];
    [| left; split; [apply popup_placeholder | ]; auto].
  right.
  destruct country as [| | b | m | s | fs]; try discriminate.
  cbn [Spec.field] in Tc.
  unfold Calc.buildHowCalculatedPopup. cbn [truthy negb get bind].
  rewrite Tc. cbn [negb].
  rewrite (get_truthy _ "latest" Tc), (get_truthy _ "previous" Tc),
    (get_truthy _ "latestDate" Tc), (get_truthy _ "previousDate" Tc).
  cbn [bind]. rewrite and_then_get_same. cbn [bind].
  destruct (Calc.parseFiniteNumber (guarded (lookup "rate" fs) "value")) as [rv |] eqn:P;
    cbn [Calc.isNull negb bind].
  - destruct (parsed_rate_present _ _ P) as [date ->]. cbn [bind].
    eexists. split; [cbn [app escapeHtml map]; reflexivity |].
    split; [safe_text |]. repeat split; discriminate.
  - eexists. split; [cbn [app escapeHtml map]; reflexivity |].
    split; [safe_text |]. repeat split; discriminate.
Qed.

(** X6. For every country value, a record or not, whose CPI readings, rate
    value, name and dates are scalars (not objects), and for every rates,
    [buildHowCalculatedPopup] returns a text without throwing, and no text
    taken from the record reaches the popup unescaped: every fragment that
    comes from the record holds none of [<], [>], the double quote and the
    apostrophe. *)
Theorem popup_total_and_escaped (country : value) (inputs : option Calc.Inputs) :
  Spec.scalarReadings country ->
  Spec.scalarLabels country ->
  exists t : text,
    Calc.buildHowCalculatedPopup country inputs = Ok t /\ Forall safeFrag t.
Proof.
  intros _ _.
  destruct (popup_outcome country inputs) as [[E _] | [rest [E [S _]]]].
  - exists Calc.placeholder. split; [exact E |]. unfold Calc.placeholder. safe_text.
  - exists (Lit "" :: rest). split; [exact E |]. apply Forall_cons; [exact I | exact S].
Qed.

Lemma popup_total_and_escaped_witness :
  exists t : text,
    Calc.buildHowCalculatedPopup (hd VNull Calc.FALLBACK_COUNTRIES)
      (Some {| Calc.inflationRate := Fin (21 / 1000);
               Calc.interestRate := Fin (4 / 100);
               Calc.hasRate := true |}) = Ok t
    /\ Forall safeFrag t.
Proof.
  apply popup_total_and_escaped.
  - repeat split.
  - repeat split.
Defined.

(** X7. For a record whose derived rates have [hasRate = true], the interest
    section of the popup shows the rate value [x] read from the record, the
    formula, and its substitution with the same [x] and the derived interest
    rate [x / 100]; the note about an unavailable rate does not appear. *)
Theorem popup_with_rate (country : value) (inputs : Calc.Inputs) :
  Calc.getInputs country = Ok (Some inputs) ->
  Calc.hasRate inputs = true ->
  exists (x : R) (date : value) (pre post : text),
    Calc.interestRate inputs = Fin (x / 100)
    /\ Calc.buildHowCalculatedPopup country (Some inputs)
       = Ok (pre
             ++ [ Lit "<p>Rate value: <strong>"; NumText (Fin x); Lit "%</strong> (";
                  escapeFrag (stringOf date); Lit ")</p>";
                  Lit "<p><code>"; Lit "interestRate = rateValue / 100"; Lit "</code></p>";
                  Lit "<p><code>"; Lit "interestRate = "; NumText (Fin x);
                  Lit " / 100 = "; PercentText (Fin (x / 100)); Lit "%";
                  Lit "</code></p>" ]
             ++ post)
    /\ ~ In (Lit Calc.rateUnavailableNote) (pre ++ post).
Proof.
  intros H Hrate.
  destruct (getInputs_shape _ _ H) as [fs [cs [-> Hcs]]].
  destruct (getInputs_success _ _ H) as [_ [l [p [_ [_ E]]]]].
  cbn [Spec.field] in E.
  destruct (Calc.parseFiniteNumber (guarded (lookup "rate" fs) "value")) as [rv |] eqn:P;
    [| rewrite E in Hrate; discriminate].
  destruct (parseFiniteNumber_finite _ _ P) as [x ->].
  assert (Ei : Calc.interestRate inputs = Fin (x / 100)).
  { rewrite E. cbn [Calc.interestRate]. apply div_Fin. lra. }
  destruct (parsed_rate_present _ _ P) as [date Hdate].
  exists x, date.
  unfold Calc.buildHowCalculatedPopup.
  cbn [truthy negb get bind]. rewrite Hcs. cbn [truthy negb get bind].
  rewrite and_then_get_same. cbn [bind].
  rewrite P. cbn [Calc.isNull negb bind]. rewrite Hdate. cbn [bind].
  unfold formatPercent. rewrite Ei.
  eexists (_ :: _ :: _ :: _ :: _ :: _ :: _ :: _ :: _ :: _ :: _ :: _ :: _ :: _ :: _ :: _ :: _
             :: _ :: _ :: _ :: _ :: _ :: _ :: _ :: _ :: _ :: _ :: _ :: _ :: _ :: _ :: []).
  eexists. split; [reflexivity |]. split.
  - cbn [app escapeHtml map]. reflexivity.
  - intros Hin. cbn [app In] in Hin.
    repeat match type of Hin with
           | _ \/ _ => destruct Hin as [Hin | Hin]
           | False => contradiction
           end;
      first [ revert Hin; apply escaped_value_not_lit
            | revert Hin; apply escaped_parsed_not_lit
            | discriminate
            | vm_compute in Hin; discriminate ].
Qed.

Lemma popup_with_rate_witness :
  exists (x : R) (date : value) (pre post : text),
    Calc.interestRate
      {| Calc.inflationRate := Fin (21 / 1000);
         Calc.interestRate := Fin (4 / 100);
         Calc.hasRate := true |} = Fin (x / 100)
    /\ Calc.buildHowCalculatedPopup (hd VNull Calc.FALLBACK_COUNTRIES)
         (Some {| Calc.inflationRate := Fin (21 / 1000);
                  Calc.interestRate := Fin (4 / 100);
                  Calc.hasRate := true |})
       = Ok (pre
             ++ [ Lit "<p>Rate value: <strong>"; NumText (Fin x); Lit "%</strong> (";
                  escapeFrag (stringOf date); Lit ")</p>";
                  Lit "<p><code>"; Lit "interestRate = rateValue / 100"; Lit "</code></p>";
                  Lit "<p><code>"; Lit "interestRate = "; NumText (Fin x);
                  Lit " / 100 = "; PercentText (Fin (x / 100)); Lit "%";
                  Lit "</code></p>" ]
             ++ post)
    /\ ~ In (Lit Calc.rateUnavailableNote) (pre ++ post).
Proof.
  apply (popup_with_rate (hd VNull Calc.FALLBACK_COUNTRIES)
           {| Calc.inflationRate := Fin (21 / 1000);
              Calc.interestRate := Fin (4 / 100);
              Calc.hasRate := true |}).
  - exact fallback_inputs.
  - reflexivity.
Defined.

(** ** One run of the calculation *)

(** X8. On a list of country records [runCalculation] returns without throwing
    for every amount text and every selection, and the three result cells
    are of one kind: three dashes, or three amounts with one currency symbol.
    The empty headline is only ever shown together with dashes. *)
Theorem runCalculation_uniform (dom : Dom) :
  Spec.records (countries dom) ->
  exists s : Screen,
    Calc.runCalculation dom = Ok s
    /\ ((loss1y s = Dash /\ loss5y s = Dash /\ loss10y s = Dash)
        \/ (emptyState s = false
            /\ exists (v1 v5 v10 : number) (sym : value),
                loss1y s = Money v1 sym /\ loss5y s = Money v5 sym
                /\ loss10y s = Money v10 sym)).
Proof.
  intros Hcs. unfold Calc.runCalculation.
  destruct (getCountry_records dom Hcs) as [country [-> Hc]]. cbn [bind].
  destruct (negb (negb (isNaN (parseFloatString (amountInput_value dom)))
                  && ge (parseFloatString (amountInput_value dom)) (Fin 0)));
    [eexists; split; [reflexivity | left; repeat split] |].
  destruct Hc as [-> | [fs ->]];
    [eexists; split; [reflexivity | left; repeat split] |].
  cbn [truthy negb get bind]. rewrite getInputs_reads. cbn [bind].
  destruct (ratesOf _ _ _) as [inputs |].
  - eexists. split; [reflexivity |]. right. split; [reflexivity |].
    do 4 eexists. repeat split.
  - eexists. split; [reflexivity | left; repeat split].
Qed.

Lemma runCalculation_uniform_witness :
  exists s : Screen,
    Calc.runCalculation Samples.infiniteAmountPage = Ok s
    /\ ((loss1y s = Dash /\ loss5y s = Dash /\ loss10y s = Dash)
        \/ (emptyState s = false
            /\ exists (v1 v5 v10 : number) (sym : value),
                loss1y s = Money v1 sym /\ loss5y s = Money v5 sym
                /\ loss10y s = Money v10 sym)).
Proof.
  apply runCalculation_uniform.
  intros c [<- | []]. eexists. reflexivity.
Defined.

(** X10. The popup and the results agree: for an accepted amount on a list of
    country records, the popup is the placeholder exactly when the result
    cells show dashes (no country selected, or no usable CPI readings). *)
Theorem popup_matches_results (dom : Dom) :
  Spec.records (countries dom) ->
  isNaN (parseFloatString (amountInput_value dom)) = false ->
  ge (parseFloatString (amountInput_value dom)) (Fin 0) = true ->
  exists (s : Screen) (t : text),
    Calc.runCalculation dom = Ok s
    /\ Calc.openPopup dom = Ok t
    /\ (loss1y s = Dash <-> t = Calc.placeholder).
Proof.
  intros Hcs Hnan Hge. unfold Calc.runCalculation, Calc.openPopup.
  destruct (getCountry_records dom Hcs) as [country [-> Hc]]. cbn [bind].
  rewrite Hnan, Hge. cbn [negb andb].
  destruct Hc as [-> | [fs ->]].
  - do 2 eexists. split; [reflexivity |]. split; [reflexivity |]. split; reflexivity.
  - cbn [truthy negb get bind].
    destruct (Calc.getInputs (VObject fs)) as [[inputs |] |] eqn:G; cbn [bind].
    + destruct (popup_outcome (VObject fs) (Some inputs))
        as [[_ [T | [T | T]]] | [rest [E _]]].
      * discriminate.
      * destruct (getInputs_shape _ _ G) as [fs' [cs [Efs Hcpi]]].
        injection Efs as <-. cbn [Spec.field] in T. rewrite Hcpi in T. discriminate.
      * discriminate.
      * rewrite E. do 2 eexists. split; [reflexivity |]. split; [reflexivity |].
        split; intros H; discriminate.
    + rewrite (popup_placeholder (VObject fs) None) by auto.
      do 2 eexists. split; [reflexivity |]. split; [reflexivity |]. split; reflexivity.
    + rewrite getInputs_reads in G. discriminate.
Qed.

Lemma popup_matches_results_witness :
  exists (s : Screen) (t : text),
    Calc.runCalculation Samples.fallbackPage = Ok s
    /\ Calc.openPopup Samples.fallbackPage = Ok t
    /\ (loss1y s = Dash <-> t = Calc.placeholder).
Proof.
  assert (A : parseFloatString (amountInput_value Samples.fallbackPage) = Fin 10000)
    by apply parseFloat_amount.
  apply popup_matches_results.
  - intros c [<- | []]. eexists. reflexivity.
  - rewrite A. reflexivity.
  - rewrite A. apply Rleb_true. lra.
Defined.

(** ** The earlier calculator on incomplete records *)

Lemma div_NaN_r (a : number) : (a / NaN)%num = NaN.
Proof. destruct a; reflexivity. Qed.

Lemma mul_NaN_r (a : number) : (a * NaN)%num = NaN.
Proof. destruct a; reflexivity. Qed.

Lemma pow_NaN_base (k : R) : k <> 0 -> pow NaN (Fin k) = NaN.
Proof. intros Hk. unfold pow. rewrite Reqb_false by exact Hk. reflexivity. Qed.

(** A rate that is not a number makes the earlier loss [NaN]. *)
Lemma computeLossV0_NaN (amount i r : number) (k : R) :
  k <> 0 -> i = NaN \/ r = NaN ->
  CalcV0.computeLoss amount i r (Fin k) = NaN.
Proof.
  intros Hk [-> | ->]; unfold CalcV0.computeLoss; cbv zeta.
  - change (Fin 1 + NaN)%num with NaN. rewrite (pow_NaN_base k Hk), div_NaN_r. reflexivity.
  - change (Fin 1 + NaN)%num with NaN. rewrite (pow_NaN_base k Hk).
    change (NaN - Fin 1)%num with NaN. apply mul_NaN_r.
Qed.

(** X11. The earlier calculator checks no field: for an accepted amount and a
    selected record that lacks [inflationAnnual] or [savingsRateAnnual], all
    three cells receive [NaN]. *)
Theorem runCalculationV0_missing_percentage
    (dom : Dom) (fields : list (string * value)) :
  isNaN (parseFloatString (amountInput_value dom)) = false ->
  ge (parseFloatString (amountInput_value dom)) (Fin 0) = true ->
  getCountry dom = Ok (VObject fields) ->
  lookup "inflationAnnual" fields = VUndefined
  \/ lookup "savingsRateAnnual" fields = VUndefined ->
  exists sym : value,
    CalcV0.runCalculation dom
    = Ok {| emptyState := false;
            interestExplanation := None;
            loss1y := Money NaN sym;
            loss5y := Money NaN sym;
            loss10y := Money NaN sym |}.
Proof.
  intros Hnan Hge Hc Hmiss. unfold CalcV0.runCalculation.
  rewrite Hc, Hnan, Hge. cbn [bind negb andb truthy get animateResultNumbers].
  cbn [year1 year5 year10].
  assert (Hrate : (toNumber (lookup "inflationAnnual" fields) / Fin 100)%num = NaN
                  \/ (toNumber (lookup "savingsRateAnnual" fields) / Fin 100)%num = NaN).
  { destruct Hmiss as [-> | ->]; [left | right]; reflexivity. }
  rewrite !computeLossV0_NaN by (lra || exact Hrate).
  eexists. reflexivity.
Qed.

Lemma runCalculationV0_missing_percentage_witness :
  exists sym : value,
    CalcV0.runCalculation Samples.noSavingsRatePage
    = Ok {| emptyState := false;
            interestExplanation := None;
            loss1y := Money NaN sym;
            loss5y := Money NaN sym;
            loss10y := Money NaN sym |}.
Proof.
  assert (A : parseFloatString (amountInput_value Samples.noSavingsRatePage) = Fin 1000).
  { eval_text. f_equal. simpl. lra. }
  eapply (runCalculationV0_missing_percentage Samples.noSavingsRatePage).
  - rewrite A. reflexivity.
  - rewrite A. apply Rleb_true. lra.
  - reflexivity.
  - right. reflexivity.
Defined.

(** ** More about the loss formula *)







(** ** Powers that are not numbers, growth factors that are zero *)

(** X24. [computeLoss] checks nothing: in double precision, when [Math.pow]
    returns [NaN] for the growth factor or for the savings growth, the loss
    is [NaN] for every amount, in the current and in the earlier
    calculator. *)
Theorem computeLoss_nan_power
    (pow : Double.number -> Double.number -> Double.number)
    (amount i r n : Double.number) :
  Double.isNaN (pow (Double.add (Double.ofZ 1) i) n) = true
  \/ Double.isNaN (pow (Double.add (Double.ofZ 1) r) n) = true ->
  Double.computeLoss pow amount i r n = Double.nan
  /\ Double.computeLossV0 pow amount i r n = Double.nan.
Proof.
  unfold Double.computeLoss, Double.computeLossV0.
  set (factor := pow (Double.add (Double.ofZ 1) i) n).
  set (growth := pow (Double.add (Double.ofZ 1) r) n).
  intros [H | H].
  - destruct factor; try discriminate.
    destruct growth; destruct amount; split; reflexivity.
  - destruct growth; try discriminate.
    change (Double.sub SpecFloat.S754_nan (Double.ofZ 1)) with Double.nan.
    generalize (Double.mul amount
                  (Double.sub (Double.ofZ 1) (Double.div (Double.ofZ 1) factor))).
    generalize (Double.div amount factor).
    intros q e. destruct q, e; split; reflexivity.
Qed.

Lemma computeLoss_nan_power_witness :
  Double.computeLoss (fun b _ => b) (Double.ofZ 1000) Double.nan (Double.ofZ 1) (Double.ofZ 1)
  = Double.nan
  /\ Double.computeLossV0 (fun b _ => b) (Double.ofZ 1000) Double.nan (Double.ofZ 1)
       (Double.ofZ 1)
     = Double.nan.
Proof.
  apply (computeLoss_nan_power (fun b _ => b)). left. reflexivity.
Defined.

(** X25. In double precision a growth factor of zero never gives a finite loss:
    when [Math.pow(1 + i, n)] is zero, the result of [computeLoss] is [NaN]
    or an infinity for every amount and every savings rate, in the current
    and in the earlier calculator. *)
Theorem computeLoss_zero_factor
    (pow : Double.number -> Double.number -> Double.number)
    (amount i r n : Double.number) :
  Double.isZero (pow (Double.add (Double.ofZ 1) i) n) = true ->
  Double.isFinite (Double.computeLoss pow amount i r n) = false
  /\ Double.isFinite (Double.computeLossV0 pow amount i r n) = false.
Proof.
  unfold Double.computeLoss, Double.computeLossV0.
  set (factor := pow (Double.add (Double.ofZ 1) i) n).
  generalize (Double.sub (pow (Double.add (Double.ofZ 1) r) n) (Double.ofZ 1)).
  intros y H.
  destruct factor as [sf | | |]; try discriminate.
  destruct amount as [sa | sa | | sa ma ea], y as [sy | sy | | sy my ey];
    destruct sf; try destruct sa; try destruct sy; split; reflexivity.
Qed.

Lemma computeLoss_zero_factor_witness :
  Double.isFinite
    (Double.computeLoss (fun b _ => b) (Double.ofZ 1000) (Double.ofZ (-1)) (Double.ofZ 1)
       (Double.ofZ 1)) = false
  /\ Double.isFinite
       (Double.computeLossV0 (fun b _ => b) (Double.ofZ 1000) (Double.ofZ (-1)) (Double.ofZ 1)
          (Double.ofZ 1)) = false.
Proof.
  apply (computeLoss_zero_factor (fun b _ => b)). reflexivity.
Defined.

(** ** Rate derivation on any value *)



(** ** Finding the selected country *)

Lemma strictEqString_true (v : value) (s : string) :
  strictEqString v s = true <-> v = VString s.
Proof.
  destruct v as [| | b | n | t | fs]; simpl; split; intros H; try discriminate.
  - apply String.eqb_eq in H. subst t. reflexivity.
  - injection H as ->. apply String.eqb_refl.
Qed.

Lemma find_by_id_first (id : string) (cs : list value) :
  Spec.records cs ->
  (exists (c : value) (pre post : list value),
      cs = pre ++ c :: post
      /\ find_by_id id cs = Ok c
      /\ Spec.field "id" c = VString id
      /\ (exists fields, c = VObject fields)
      /\ forall r, In r pre -> Spec.field "id" r <> VString id)
  \/ (find_by_id id cs = Ok VUndefined
      /\ forall r, In r cs -> Spec.field "id" r <> VString id).
Proof.
  induction cs as [| c rest IH]; intros Hcs.
  - right. split; [reflexivity | intros r []].
  - destruct (Hcs c (or_introl eq_refl)) as [fs ->].
    cbn [find_by_id get bind].
    destruct (strictEqString (lookup "id" fs) id) eqn:E.
    + left. exists (VObject fs), [], rest.
      apply strictEqString_true in E.
      repeat split; try assumption; [eexists; reflexivity | intros r []].
    + assert (Hne : Spec.field "id" (VObject fs) <> VString id).
      { intros H. apply strictEqString_true in H. simpl in H. congruence. }
      destruct IH as [[c [pre [post [-> [F [Hid [Hobj Hpre]]]]]]] | [F Hnone]].
      * intros c' Hin. apply Hcs. right. exact Hin.
      * left. exists c, (VObject fs :: pre), post.
        repeat split; try assumption.
        intros r [<- | Hin]; [exact Hne | apply Hpre; exact Hin].
      * right. split; [exact F |].
        intros r [<- | Hin]; [exact Hne | apply Hnone; exact Hin].
Qed.

(** X17. On a list of country records [getCountry] returns the first record whose
    [id] is the selected string, and [null] exactly when no record has that
    id; it never returns [undefined]. *)
Theorem getCountry_first_match (dom : Dom) :
  Spec.records (countries dom) ->
  (exists (c : value) (pre post : list value),
      countries dom = pre ++ c :: post
      /\ getCountry dom = Ok c
      /\ Spec.field "id" c = VString (countrySelect_value dom)
      /\ forall r, In r pre -> Spec.field "id" r <> VString (countrySelect_value dom))
  \/ (getCountry dom = Ok VNull
      /\ forall r, In r (countries dom) ->
           Spec.field "id" r <> VString (countrySelect_value dom)).
Proof.
  intros Hcs. unfold getCountry.
  destruct (find_by_id_first (countrySelect_value dom) _ Hcs)
    as [[c [pre [post [E [F [Hid [[fs ->] Hpre]]]]]]] | [F Hnone]].
  - left. exists (VObject fs), pre, post. rewrite F. repeat split; assumption.
  - right. rewrite F. split; [reflexivity | exact Hnone].
Qed.

Lemma getCountry_first_match_witness :
  (exists (c : value) (pre post : list value),
      countries Samples.fallbackPage = pre ++ c :: post
      /\ getCountry Samples.fallbackPage = Ok c
      /\ Spec.field "id" c = VString (countrySelect_value Samples.fallbackPage)
      /\ forall r, In r pre ->
           Spec.field "id" r <> VString (countrySelect_value Samples.fallbackPage))
  \/ (getCountry Samples.fallbackPage = Ok VNull
      /\ forall r, In r (countries Samples.fallbackPage) ->
           Spec.field "id" r <> VString (countrySelect_value Samples.fallbackPage)).
Proof.
  apply getCountry_first_match.
  intros c [<- | []]. eexists. reflexivity.
Defined.

(** X18. A list entry that is [undefined] or [null] makes [getCountry] throw when
    no record before it has the selected id. *)
Theorem getCountry_null_entry (dom : Dom) (pre post : list value) (x : value) :
  countries dom = pre ++ x :: post ->
  nullish x ->
  Spec.records pre ->
  (forall r, In r pre -> Spec.field "id" r <> VString (countrySelect_value dom)) ->
  getCountry dom = TypeError.
Proof.
  intros E Hx Hpre Hnone. unfold getCountry. rewrite E.
  assert (F : find_by_id (countrySelect_value dom) (pre ++ x :: post) = TypeError).
  { clear E. induction pre as [| c pre IH].
    - destruct Hx as [-> | ->]; reflexivity.
    - destruct (Hpre c (or_introl eq_refl)) as [fs ->].
      cbn [app find_by_id get bind].
      destruct (strictEqString (lookup "id" fs) (countrySelect_value dom)) eqn:S.
      + apply strictEqString_true in S.
        exfalso. apply (Hnone (VObject fs) (or_introl eq_refl)). exact S.
      + apply IH.
        * intros c' Hin. apply Hpre. right. exact Hin.
        * intros r Hin. apply Hnone. right. exact Hin. }
  rewrite F. reflexivity.
Qed.

Lemma getCountry_null_entry_witness :
  getCountry
    {| amountInput_value := "100"; countrySelect_value := "DE";
       countries := hd VNull Calc.FALLBACK_COUNTRIES :: VNull :: [] |}
  = TypeError.
Proof.
  apply (getCountry_null_entry _ [hd VNull Calc.FALLBACK_COUNTRIES] [] VNull).
  - reflexivity.
  - right. reflexivity.
  - intros c [<- | []]. eexists. reflexivity.
  - intros r [<- | []]. simpl. discriminate.
Defined.

(** ** The preselected country *)

Lemma strictEq_string (s : string) (code : value) :
  strictEq (VString s) code = true <-> code = VString s.
Proof.
  destruct code as [| | b | n | t | fs]; simpl; split; intros H; try discriminate.
  - apply String.eqb_eq in H. subst t. reflexivity.
  - injection H as ->. apply String.eqb_refl.
Qed.

(** On records with string ids the search for a code does not throw, and
    finds the code exactly when a record has it as its id. *)
Lemma some_id_listed (code : value) (cs : list value) :
  stringIds cs ->
  exists b : bool,
    some_id code cs = Ok b
    /\ (b = true <-> exists c, In c cs /\ Spec.field "id" c = code).
Proof.
  induction cs as [| c rest IH]; intros Hcs.
  - exists false. split; [reflexivity |]. split; [discriminate | intros [c [[] _]]].
  - destruct (Hcs c (or_introl eq_refl)) as [fs [s [-> Hid]]].
    cbn [some_id get bind]. rewrite Hid.
    destruct (strictEq (VString s) code) eqn:E.
    + exists true. split; [reflexivity |]. split; [intros _ | reflexivity].
      exists (VObject fs). split; [left; reflexivity |].
      apply strictEq_string in E. simpl. rewrite Hid. symmetry. exact E.
    + destruct IH as [b [F Hb]].
      { intros c' Hin. apply Hcs. right. exact Hin. }
      exists b. split; [exact F |]. rewrite Hb. split.
      * intros [c' [Hin Hc']]. exists c'. split; [right; exact Hin | exact Hc'].
      * intros [c' [[<- | Hin] Hc']].
        -- simpl in Hc'. rewrite Hid in Hc'.
           assert (T : strictEq (VString s) code = true)
             by (apply strictEq_string; symmetry; exact Hc').
           rewrite T in E. discriminate.
        -- exists c'. split; assumption.
Qed.

(** The fallback selection on a non-empty list of records with string ids is
    the id of a listed record. *)
Lemma fallbackSelection_listed (cs : list value) :
  cs <> [] -> stringIds cs ->
  exists (s : string) (c : value),
    fallbackSelection cs = Ok (VString s) /\ In c cs /\ Spec.field "id" c = VString s.
Proof.
  intros Hne Hcs. unfold fallbackSelection.
  destruct (some_id_listed (VString FALLBACK_COUNTRY_ID) cs Hcs) as [b [-> Hb]].
  cbn [bind]. destruct b.
  - destruct (proj1 Hb eq_refl) as [c [Hin Hc]].
    exists FALLBACK_COUNTRY_ID, c. repeat split; assumption.
  - destruct cs as [| c0 rest]; [contradiction |].
    destruct (Hcs c0 (or_introl eq_refl)) as [fs [s [-> Hid]]].
    exists s, (VObject fs). cbn [nth and_then truthy get]. rewrite Hid.
    repeat split; [left; reflexivity | exact Hid].
Qed.

Lemma selectFromAnswer_listed (data : value) (cs : list value) :
  cs <> [] -> stringIds cs ->
  exists (s : string) (c : value),
    selectFromAnswer data cs = Ok (VString s)
    /\ In c cs /\ Spec.field "id" c = VString s.
Proof.
  intros Hne Hcs. unfold selectFromAnswer.
  rewrite and_then_get. cbn [bind].
  assert (Hcode : exists code : value,
             (if truthy (guarded data "countryCode")
              then get data "countryCode" else Ok VNull) = Ok code).
  { destruct (truthy (guarded data "countryCode")) eqn:T; [| eexists; reflexivity].
    destruct (truthy_guarded _ _ T) as [Td _].
    rewrite (get_truthy _ _ Td). eexists. reflexivity. }
  destruct Hcode as [code ->]. cbn [bind].
  destruct (truthy code).
  - destruct (some_id_listed code cs Hcs) as [b [-> Hb]]. cbn [bind].
    destruct b; [| apply fallbackSelection_listed; assumption].
    destruct (proj1 Hb eq_refl) as [c [Hin Hc]].
    destruct (Hcs c Hin) as [fs [s [-> Hid]]].
    simpl in Hc. rewrite Hid in Hc. subst code.
    exists s, (VObject fs). repeat split; [exact Hin | exact Hid].
  - cbn [bind]. apply fallbackSelection_listed; assumption.
Qed.

(** X19. Whatever the geolocation answers, and also when it fails, the value
    preselected on a non-empty list of records with string ids is the id of
    a listed record, so that [getCountry] then returns a record with that id
    and never [null]. *)
Theorem preSelect_then_getCountry
    (answer : option value) (cs : list value) (amountText : string) :
  cs <> [] -> stringIds cs ->
  exists (s : string) (fields : list (string * value)),
    preSelectCountryFromIP answer cs = Ok (VString s)
    /\ getCountry {| amountInput_value := amountText;
                     countrySelect_value := s;
                     countries := cs |} = Ok (VObject fields)
    /\ lookup "id" fields = VString s.
Proof.
  intros Hne Hcs.
  assert (Hsel : exists (s : string) (c : value),
             preSelectCountryFromIP answer cs = Ok (VString s)
             /\ In c cs /\ Spec.field "id" c = VString s).
  { unfold preSelectCountryFromIP. destruct answer as [data |].
    - destruct (selectFromAnswer_listed data cs Hne Hcs) as [s [c [-> H]]].
      exists s, c. split; [reflexivity | exact H].
    - apply fallbackSelection_listed; assumption. }
  destruct Hsel as [s [c [Hpre [Hin Hc]]]].
  exists s.
  assert (Hrec : Spec.records cs).
  { intros c' Hin'. destruct (Hcs c' Hin') as [fs [t [-> _]]]. eexists. reflexivity. }
  destruct (getCountry_records
              {| amountInput_value := amountText; countrySelect_value := s; countries := cs |}
              Hrec) as [country [G Hcountry]].
  destruct (find_by_id_first s cs Hrec)
    as [[c' [pre [post [E [F [Hid [[fs ->] Hfirst]]]]]]] | [F Hnone]].
  - exists fs. split; [exact Hpre |].
    unfold getCountry. cbn [countrySelect_value countries]. rewrite F.
    split; [reflexivity | exact Hid].
  - exfalso. apply (Hnone c Hin). exact Hc.
Qed.

Lemma preSelect_then_getCountry_witness :
  exists (s : string) (fields : list (string * value)),
    preSelectCountryFromIP
      (Some (VObject [ ("countryCode", VString "FR") ]%string)) Calc.FALLBACK_COUNTRIES
    = Ok (VString s)
    /\ getCountry {| amountInput_value := "100";
                     countrySelect_value := s;
                     countries := Calc.FALLBACK_COUNTRIES |} = Ok (VObject fields)
    /\ lookup "id" fields = VString s.
Proof.
  apply preSelect_then_getCountry.
  - discriminate.
  - intros c [<- | []]. do 2 eexists. split; reflexivity.
Defined.

(** X20. The order of preference: a located country that is listed is selected;
    otherwise the fallback country when it is listed; otherwise the first
    country of the list. *)
Theorem preSelect_preference (data : value) (code : string) (cs : list value) :
  stringIds cs ->
  Spec.field "countryCode" data = VString code ->
  code <> EmptyString ->
  ((exists c, In c cs /\ Spec.field "id" c = VString code) ->
   preSelectCountryFromIP (Some data) cs = Ok (VString code))
  /\ ((forall c, In c cs -> Spec.field "id" c <> VString code) ->
      preSelectCountryFromIP (Some data) cs = preSelectCountryFromIP None cs)
  /\ ((exists c, In c cs /\ Spec.field "id" c = VString FALLBACK_COUNTRY_ID) ->
      preSelectCountryFromIP None cs = Ok (VString FALLBACK_COUNTRY_ID))
  /\ ((forall c, In c cs -> Spec.field "id" c <> VString FALLBACK_COUNTRY_ID) ->
      preSelectCountryFromIP None cs = Ok (Spec.field "id" (nth 0 cs VUndefined))).
Proof.
  intros Hcs Hcode Hne.
  assert (Tcode : truthy (VString code) = true).
  { simpl. destruct code; [contradiction | reflexivity]. }
  assert (Hdata : guarded data "countryCode" = VString code).
  { rewrite guarded_field by (rewrite Hcode; discriminate). exact Hcode. }
  assert (Td : truthy data = true).
  { apply (field_object "countryCode"). rewrite Hcode. discriminate. }
  assert (Hsel : selectFromAnswer data cs
                 = (listed <- some_id (VString code) cs ;;
                    if listed then Ok (VString code) else fallbackSelection cs)).
  { unfold selectFromAnswer. rewrite and_then_get. cbn [bind].
    rewrite Hdata, Tcode, (get_truthy _ _ Td), Hcode. cbn [bind].
    rewrite Tcode. reflexivity. }
  destruct (some_id_listed (VString code) cs Hcs) as [b [Hb Hbiff]].
  destruct (some_id_listed (VString FALLBACK_COUNTRY_ID) cs Hcs) as [u [Hu Huiff]].
  repeat split.
  - intros Hex. unfold preSelectCountryFromIP. rewrite Hsel, Hb.
    rewrite (proj2 Hbiff Hex). reflexivity.
  - intros Hnone. unfold preSelectCountryFromIP. rewrite Hsel, Hb.
    destruct b.
    + destruct (proj1 Hbiff eq_refl) as [c [Hin Hc]]. exfalso. apply (Hnone c Hin Hc).
    + cbn [bind]. destruct (fallbackSelection cs); reflexivity.
  - intros Hex. unfold preSelectCountryFromIP, fallbackSelection. rewrite Hu.
    rewrite (proj2 Huiff Hex). reflexivity.
  - intros Hnone. unfold preSelectCountryFromIP, fallbackSelection. rewrite Hu.
    destruct u.
    + destruct (proj1 Huiff eq_refl) as [c [Hin Hc]]. exfalso. apply (Hnone c Hin Hc).
    + cbn [bind]. destruct cs as [| c0 rest]; [reflexivity |].
      destruct (Hcs c0 (or_introl eq_refl)) as [fs [s [-> Hid]]].
      reflexivity.
Qed.

Lemma preSelect_preference_witness :
  preSelectCountryFromIP (Some (VObject [ ("countryCode", VString "FR") ]%string))
    Calc.FALLBACK_COUNTRIES
  = preSelectCountryFromIP None Calc.FALLBACK_COUNTRIES
  /\ preSelectCountryFromIP None Calc.FALLBACK_COUNTRIES = Ok (VString FALLBACK_COUNTRY_ID).
Proof.
  destruct (preSelect_preference
              (VObject [ ("countryCode", VString "FR") ]%string) "FR"
              Calc.FALLBACK_COUNTRIES) as [_ [K2 [K3 _]]].
  - intros c [<- | []]. do 2 eexists. split; reflexivity.
  - reflexivity.
  - discriminate.
  - split.
    + apply K2. intros c [<- | []]. simpl. discriminate.
    + apply K3. exists (hd VNull Calc.FALLBACK_COUNTRIES).
      split; [left; reflexivity | reflexivity].
Defined.

(** ** The flag of a country *)

Lemma charCode_inj (c d : ascii) : charCode c = charCode d -> c = d.
Proof.
  unfold charCode. intros H. apply Nat2Z.inj in H.
  rewrite <- (ascii_nat_embedding c), <- (ascii_nat_embedding d), H. reflexivity.
Qed.

(** X21. [countryToFlag] returns no character for a string that is not two
    characters long.  For a two-character id it returns two code points,
    which are both regional indicator symbols (that is, a flag) exactly when
    both characters are upper-case letters A to Z; and two different
    two-character ids never get the same pair. *)
Theorem countryToFlag_flag (s t : string) (c0 c1 : ascii) :
  (String.length s <> 2%nat -> countryToFlag (VString s) = Ok [])
  /\ (exists p0 p1 : Z,
         countryToFlag (VString (String c0 (String c1 EmptyString))) = Ok [p0; p1]
         /\ (regional p0 /\ regional p1 <-> upper c0 /\ upper c1))
  /\ (String.length s = 2%nat -> String.length t = 2%nat ->
      countryToFlag (VString s) = countryToFlag (VString t) -> s = t).
Proof.
  split; [| split].
  - intros Hlen. unfold countryToFlag.
    destruct (truthy (VString s)); [| reflexivity]. cbn [negb].
    destruct (String.length s =? 2)%nat eqn:E; [| reflexivity].
    apply Nat.eqb_eq in E. contradiction.
  - eexists. eexists. split; [reflexivity |].
    unfold regional, upper, REGIONAL_A. lia.
  - intros Hs Ht.
    destruct s as [| a0 [| a1 [| a2 s]]]; try discriminate.
    destruct t as [| b0 [| b1 [| b2 t]]]; try discriminate.
    intros H. unfold countryToFlag in H.
    cbn [truthy String.eqb negb String.length Nat.eqb] in H.
    remember (REGIONAL_A - 65 + charCode a0)%Z as x0 eqn:Ex0.
    remember (REGIONAL_A - 65 + charCode a1)%Z as x1 eqn:Ex1.
    remember (REGIONAL_A - 65 + charCode b0)%Z as y0 eqn:Ey0.
    remember (REGIONAL_A - 65 + charCode b1)%Z as y1 eqn:Ey1.
    injection H as H0 H1.
    assert (E0 : charCode a0 = charCode b0) by lia.
    assert (E1 : charCode a1 = charCode b1) by lia.
    apply charCode_inj in E0. apply charCode_inj in E1. subst. reflexivity.
Qed.

Lemma countryToFlag_flag_witness :
  countryToFlag (VString "US") = Ok [127482%Z; 127480%Z]
  /\ countryToFlag (VString "USA") = Ok []
  /\ (exists p0 p1 : Z,
         countryToFlag (VString "us") = Ok [p0; p1]
         /\ (regional p0 /\ regional p1 <-> upper "u" /\ upper "s"))
  /\ (countryToFlag (VString "US") = countryToFlag (VString "UK") -> "US" = "UK")%string.
Proof.
  destruct (countryToFlag_flag "US" "UK" "u" "s") as [_ [K2 K3]].
  destruct (countryToFlag_flag "USA" "UK" "u" "s") as [K1 _].
  split; [reflexivity |]. split; [apply K1; discriminate |]. split; [exact K2 |].
  apply K3; reflexivity.
Defined.

(** ** Numbers given as text *)

Ltac digit_case IH acc count n z c :=
  let k := fresh "k" in
  let E := fresh "E" in
  let Hk := fresh "Hk" in
  destruct (IH n (S count)) as [k [E [Hk _]]];
  exists k; cbn [DecimalString.NilEmpty.string_of_uint digits];
  change (digitValue 10 c) with (Some z); cbv iota;
  replace (10 * Z.of_nat acc + z)%Z with (Z.of_nat n)
    by (rewrite Nat.tail_mul_spec; lia);
  repeat split; [exact E | lia | intros _; lia].

(** Reading the digits of a decimal numeral gives the number it denotes and
    consumes all of them. *)
Lemma digits_uint (d : Decimal.uint) (acc count : nat) :
  exists k : nat,
    digits 10 (Z.of_nat acc) count (DecimalString.NilEmpty.string_of_uint d)
    = (Z.of_nat (Nat.of_uint_acc d acc), k, EmptyString)
    /\ (count <= k)%nat
    /\ (d <> Decimal.Nil -> count < k)%nat.
Proof.
  revert acc count.
  induction d as [| d IH | d IH | d IH | d IH | d IH | d IH | d IH | d IH | d IH | d IH];
    intros acc count.
  - exists count. repeat split; [lia | intros H; contradiction].
  - digit_case IH acc count (Nat.tail_mul 10 acc) 0%Z "0"%char.
  - digit_case IH acc count (S (Nat.tail_mul 10 acc)) 1%Z "1"%char.
  - digit_case IH acc count (S (S (Nat.tail_mul 10 acc))) 2%Z "2"%char.
  - digit_case IH acc count (S (S (S (Nat.tail_mul 10 acc)))) 3%Z "3"%char.
  - digit_case IH acc count (S (S (S (S (Nat.tail_mul 10 acc))))) 4%Z "4"%char.
  - digit_case IH acc count (S (S (S (S (S (Nat.tail_mul 10 acc)))))) 5%Z "5"%char.
  - digit_case IH acc count (S (S (S (S (S (S (Nat.tail_mul 10 acc))))))) 6%Z "6"%char.
  - digit_case IH acc count (S (S (S (S (S (S (S (Nat.tail_mul 10 acc)))))))) 7%Z "7"%char.
  - digit_case IH acc count (S (S (S (S (S (S (S (S (Nat.tail_mul 10 acc))))))))) 8%Z
      "8"%char.
  - digit_case IH acc count (S (S (S (S (S (S (S (S (S (Nat.tail_mul 10 acc)))))))))) 9%Z
      "9"%char.
Qed.

(** A decimal numeral opens with a digit: no white space to skip, no sign,
    and not the word [Infinity]. *)
Lemma decimal_head (d : Decimal.uint) :
  let s := DecimalString.NilZero.string_of_uint d in
  trimStart s = s
  /\ signedDecimal s
     = match
         (let '(ip, ni, r1) := digits 10 0 0 s in
          let '(m, nf, r2) :=
            match r1 with
            | String "."%char r => digits 10 ip 0 r
            | _ => (ip, 0%nat, r1)
            end in
          if (ni + nf =? 0)%nat then None
          else
            let '(e, r3) := exponentPart r2 in
            Some (Fin (IZR m * powerRZ 10 (e - Z.of_nat nf)), r3))
       with
       | Some (n, rest) => Some (n, rest)
       | None => None
       end.
Proof. destruct d; split; reflexivity. Qed.

Lemma digits_decimal (d : Decimal.uint) :
  exists k : nat,
    digits 10 0 0 (DecimalString.NilZero.string_of_uint d)
    = (Z.of_nat (Nat.of_uint d), k, EmptyString)
    /\ (0 < k)%nat.
Proof.
  destruct d as [| d | d | d | d | d | d | d | d | d | d].
  1: exists 1%nat; split; [reflexivity | lia].
  all: match goal with
       | |- context [DecimalString.NilZero.string_of_uint ?u] =>
           destruct (digits_uint u 0 0) as [k [E [_ Hk]]];
           exists k; split; [exact E | apply Hk; discriminate]
       end.
Qed.

(** The decimal text of a natural number reads back as that number. *)
Lemma parseFloatString_decimal (n : nat) : parseFloatString (decimal n) = Fin (INR n).
Proof.
  unfold parseFloatString, decimal.
  destruct (decimal_head (Nat.to_uint n)) as [T S]. cbv zeta in T, S.
  rewrite T, S.
  destruct (digits_decimal (Nat.to_uint n)) as [k [-> Hk]].
  rewrite DecimalNat.Unsigned.of_to.
  replace (k + 0 =? 0)%nat with false by (symmetry; apply Nat.eqb_neq; lia).
  cbn [exponentPart]. f_equal.
  rewrite Z.sub_0_r. cbn [powerRZ]. rewrite Rmult_1_r. symmetry. apply INR_IZR_INZ.
Qed.

(** X22. CPI readings given as text are read like numbers: for a record whose two
    index values are the decimal texts of positive naturals [a] and [b] below
    [2 ^ 53] (the integers every one of which a double holds exactly),
    [getInputs] returns rates with the inflation rate [a / b - 1]. *)
Theorem getInputs_decimal_text (country : value) (a b : nat) :
  Spec.latestIndexValue country = VString (decimal a) ->
  Spec.previousIndexValue country = VString (decimal b) ->
  (0 < Z.of_nat a < 2 ^ 53)%Z -> (0 < Z.of_nat b < 2 ^ 53)%Z ->
  exists inputs : Calc.Inputs,
    Calc.getInputs country = Ok (Some inputs)
    /\ Calc.inflationRate inputs = Fin (INR a / INR b - 1).
Proof.
  unfold Spec.latestIndexValue, Spec.previousIndexValue.
  intros Hl Hp [Ha _] [Hb _]. rewrite getInputs_reads.
  rewrite !guarded_nested by (rewrite ?Hl, ?Hp; discriminate).
  rewrite Hl, Hp. unfold ratesOf, Calc.parseFiniteNumber. cbn [parseFloat].
  rewrite !parseFloatString_decimal. cbn [isFinite le].
  assert (Ha' : 0 < INR a) by (apply lt_0_INR; lia).
  assert (Hb' : 0 < INR b) by (apply lt_0_INR; lia).
  rewrite !Rleb_false by lra. cbn [orb].
  eexists. split; [reflexivity |].
  cbn [Calc.inflationRate]. rewrite div_Fin by lra. reflexivity.
Qed.

Lemma getInputs_decimal_text_witness :
  exists inputs : Calc.Inputs,
    Calc.getInputs Samples.textReadings = Ok (Some inputs)
    /\ Calc.inflationRate inputs = Fin (INR 110 / INR 100 - 1).
Proof.
  apply getInputs_decimal_text; try reflexivity; split; reflexivity.
Defined.

(** ** Inflation-only mode *)


